(** * seo-tool: the website analysis engine

    A shallow embedding of the two source files of the repository:

    - the SEO analyser ([analyzeSEO] and its helpers, a Node script built
      on axios and cheerio), in [Module Seo];
    - the security tab ([checkSSL] and [checkSecurityHeaders], the two
      asynchronous checks of the React component [SecurityTab]), in
      [Module Security].

    The platform the code runs on is modelled in [Module JS] (strings,
    numbers, [Array.prototype.sort], property lookup on a plain object)
    and [Module Dom] (the parsed document that cheerio queries).  The
    network is an oracle: a page fetch, a URL parse or a [fetch] call
    either completes normally or throws. *)

From Stdlib Require Import List String Ascii Bool Arith ZArith QArith Qabs Qround Lia.
From Stdlib Require Import DecimalString Permutation.
Import ListNotations.
Local Open Scope string_scope.
Local Open Scope nat_scope.

(* ================================================================== *)
(** * JavaScript values *)
(* ================================================================== *)

Module JS.

(** ** Strings

    A string is a sequence of code units; the model keeps the code units
    U+0000 to U+00FF, one [ascii] each, so [String.length] is the
    [length] property. *)

(** The class [\s] of a regular expression, below U+0100: TAB, LF, VT,
    FF, CR, SPACE and NO-BREAK SPACE. *)
Definition isWhiteSpace (c : ascii) : bool :=
  let n := nat_of_ascii c in
  ((9 <=? n) && (n <=? 13)) || (n =? 32) || (n =? 160).

(** The class [[a-z]]. *)
Definition isLowerAZ (c : ascii) : bool :=
  let n := nat_of_ascii c in (97 <=? n) && (n <=? 122).

(** The class [[0-9]]. *)
Definition isDigit (c : ascii) : bool :=
  let n := nat_of_ascii c in (48 <=? n) && (n <=? 57).

(** [String.prototype.toLowerCase] on one code unit: A-Z and the
    Latin-1 capitals (U+00C0 to U+00DE, the multiplication sign apart)
    move 32 places up. *)
Definition toLowerChar (c : ascii) : ascii :=
  let n := nat_of_ascii c in
  if ((65 <=? n) && (n <=? 90))
     || ((192 <=? n) && (n <=? 222) && negb (n =? 215))
  then ascii_of_nat (n + 32) else c.

Fixpoint toLowerCase (s : string) : string :=
  match s with
  | EmptyString => EmptyString
  | String c r => String (toLowerChar c) (toLowerCase r)
  end.

(** [s.split(/\s+/)]: the pieces between the maximal runs of white
    space.  A run at the start or at the end leaves an empty piece
    there, and the empty string splits into one empty piece.  [cur] is
    the piece being read, [sep] says that the last code unit was white
    space. *)
Fixpoint split_from (s cur : string) (sep : bool) : list string :=
  match s with
  | EmptyString => [cur]
  | String c r =>
      if isWhiteSpace c then
        if sep then split_from r EmptyString true
        else cur :: split_from r EmptyString true
      else split_from r (cur ++ String c EmptyString) false
  end.

Definition split_ws (s : string) : list string :=
  split_from s EmptyString false.

(** [w.replace(/[^a-z]/g, '')]. *)
Fixpoint keepLowerAZ (s : string) : string :=
  match s with
  | EmptyString => EmptyString
  | String c r =>
      if isLowerAZ c then String c (keepLowerAZ r) else keepLowerAZ r
  end.

(** [s.includes(sub)]. *)
Fixpoint includes (s sub : string) : bool :=
  String.prefix sub s
  || match s with
     | EmptyString => false
     | String _ r => includes r sub
     end.

(** [s.startsWith(p)]. *)
Definition startsWith (s p : string) : bool := String.prefix p s.

(** [s.trim()]. *)
Fixpoint trimStart (s : string) : string :=
  match s with
  | EmptyString => EmptyString
  | String c r => if isWhiteSpace c then trimStart r else s
  end.

Fixpoint trimEnd (s : string) : string :=
  match s with
  | EmptyString => EmptyString
  | String c r =>
      match trimEnd r with
      | EmptyString => if isWhiteSpace c then EmptyString
                       else String c EmptyString
      | r' => String c r'
      end
  end.

Definition trim (s : string) : string := trimEnd (trimStart s).

(** [a.join(sep)]. *)
Definition join (sep : string) (a : list string) : string :=
  String.concat sep a.

(** [s || d] on strings: the empty string is falsy. *)
Definition str_or (s d : string) : string :=
  match s with EmptyString => d | _ => s end.

(** [v || d] where [v] is a string or [undefined]. *)
Definition opt_or (v : option string) (d : string) : string :=
  match v with Some s => str_or s d | None => d end.

(** [(s.match(/pat/g) || []).length] for a literal pattern that cannot
    overlap itself: the number of places where [pat] occurs. *)
Fixpoint countMatches (pat s : string) : nat :=
  (if String.prefix pat s then 1 else 0)
  + match s with
    | EmptyString => 0
    | String _ r => countMatches pat r
    end.

(** ** Numbers

    A Number is NaN, an infinity or a finite value.  Finite values are
    kept as exact rationals in lowest terms: the roundings of IEEE
    doubles are left out, the special values and the rules that produce
    them ([0/0] is NaN, [x/0] is an infinity) are those of the language. *)
Inductive number :=
| NaN
| Infinity (negative : bool)
| Finite (q : Q).

Definition ofNat (n : nat) : number := Finite (Z.of_nat n # 1).

Definition isNeg (q : Q) : bool :=
  match Qcompare q 0 with Lt => true | _ => false end.

Definition isZero (q : Q) : bool :=
  match Qcompare q 0 with Eq => true | _ => false end.

(** [x / y]. *)
Definition div (x y : number) : number :=
  match x, y with
  | NaN, _ | _, NaN => NaN
  | Infinity _, Infinity _ => NaN
  | Infinity s, Finite b => Infinity (xorb s (isNeg b))
  | Finite _, Infinity _ => Finite 0
  | Finite a, Finite b =>
      if isZero b then
        if isZero a then NaN else Infinity (isNeg a)
      else Finite (Qred (a / b))
  end.

(** [x * y]. *)
Definition mul (x y : number) : number :=
  match x, y with
  | NaN, _ | _, NaN => NaN
  | Infinity s, Infinity t => Infinity (xorb s t)
  | Infinity s, Finite b =>
      if isZero b then NaN else Infinity (xorb s (isNeg b))
  | Finite a, Infinity t =>
      if isZero a then NaN else Infinity (xorb (isNeg a) t)
  | Finite a, Finite b => Finite (Qred (a * b))
  end.

(** [Math.round(x)]: the integer nearest to [x], halves going up. *)
Definition round (x : number) : number :=
  match x with
  | Finite q => Finite (Qfloor (q + (1 # 2)) # 1)
  | _ => x
  end.

(** [x || 0] on numbers: NaN and zero are falsy. *)
Definition num_or_zero (x : number) : number :=
  match x with
  | NaN => Finite 0
  | Finite q => if isZero q then Finite 0 else x
  | Infinity _ => x
  end.

Definition decimal (z : Z) : string :=
  NilZero.string_of_uint (N.to_uint (Z.to_N z)).

(** [x.toFixed(1)], for a value below 10^21: the integer [n] nearest to
    [10 * x] (the larger one on a tie), printed with one digit after the
    point. *)
Definition toFixed1 (x : number) : string :=
  match x with
  | NaN => "NaN"
  | Infinity false => "Infinity"
  | Infinity true => "-Infinity"
  | Finite q =>
      let n := Qfloor (Qabs q * 10 + (1 # 2)) in
      (if isNeg q then "-" else "")
      ++ decimal (n / 10) ++ "." ++ decimal (n mod 10)
  end.

(** ** Values stored in a plain object used as a counter table *)
Inductive value :=
| Undefined
| Num (n : nat)
| Str (s : string)
| Fun (source : string).

(** A plain object [{}]: its own properties in insertion order.  (Keys
    that are array indices would come first; the tables below never
    hold one.) *)
Definition object := list (string * value).

Fixpoint getOwn (o : object) (k : string) : option value :=
  match o with
  | [] => None
  | (k', v) :: r => if String.eqb k' k then Some v else getOwn r k
  end.

(** What [Object.prototype] answers for a key made of the letters a-z
    only: of its property names ([constructor], [hasOwnProperty],
    [isPrototypeOf], [propertyIsEnumerable], [toLocaleString],
    [toString], [valueOf], [__proto__] and the [__define/lookup__]
    four) only [constructor] is such a key; its value is the function
    [Object]. *)
Definition Object_source : string := "function Object() { [native code] }".

Definition inherited (k : string) : value :=
  if String.eqb k "constructor" then Fun Object_source else Undefined.

(** [o[k]]: the own property, else the inherited one. *)
Definition get (o : object) (k : string) : value :=
  match getOwn o k with
  | Some v => v
  | None => inherited k
  end.

(** [o[k] = v]: an own property keeps its place, a new one goes last. *)
Fixpoint set (o : object) (k : string) (v : value) : object :=
  match o with
  | [] => [(k, v)]
  | (k', v') :: r =>
      if String.eqb k' k then (k', v) :: r else (k', v') :: set r k v
  end.

(** [(v || 0) + 1]: [undefined], [0] and the empty string are falsy; a
    number is incremented, a string or a function is turned into a
    string and gets the digit appended. *)
Definition or_zero_plus_one (v : value) : value :=
  match v with
  | Undefined => Num 1
  | Num n => Num (n + 1)
  | Str EmptyString => Num 1
  | Str s => Str (s ++ "1")
  | Fun src => Str (src ++ "1")
  end.

(** [ToNumber]: [None] stands for NaN.  Of the string literals only the
    empty string and unsigned decimal integers are read as numbers;
    signs, fractions, exponents and surrounding white space are not
    handled, and no string of the tables below has them. *)
Fixpoint allDigits (s : string) : bool :=
  match s with
  | EmptyString => true
  | String c r => isDigit c && allDigits r
  end.

Fixpoint digitsValue (acc : Z) (s : string) : Z :=
  match s with
  | EmptyString => acc
  | String c r => digitsValue (10 * acc + Z.of_nat (nat_of_ascii c - 48)) r
  end.

Definition ToNumber (v : value) : option Z :=
  match v with
  | Undefined => None
  | Num n => Some (Z.of_nat n)
  | Str s => if allDigits s then Some (digitsValue 0 s) else None
  | Fun _ => None
  end.

(** [x - y] on two values, after [ToNumber]. *)
Definition minus (x y : value) : option Z :=
  match ToNumber x, ToNumber y with
  | Some a, Some b => Some (a - b)%Z
  | _, _ => None
  end.

(** [Array.prototype.sort(cmp)]: a stable sort; a comparator result of
    NaN counts as zero.  [placeBefore cmp x y] says that [x], which
    stood before [y], stays before it. *)
Section Sort.
Context {A : Type} (cmp : A -> A -> option Z).

Definition placeBefore (x y : A) : bool :=
  match cmp x y with
  | Some v => (v <=? 0)%Z
  | None => true
  end.

Fixpoint insert (x : A) (sorted : list A) : list A :=
  match sorted with
  | [] => [x]
  | y :: r => if placeBefore x y then x :: y :: r else y :: insert x r
  end.

Fixpoint sort (a : list A) : list A :=
  match a with
  | [] => []
  | x :: r => insert x (sort r)
  end.
End Sort.

(** [a.slice(0, n)]. *)
Definition slice0 {A} (n : nat) (a : list A) : list A := firstn n a.

End JS.

(* ================================================================== *)
(** * The parsed document *)
(* ================================================================== *)

Module Dom.

(** The tree [cheerio.load] builds: text nodes and elements (tag names
    in lower case, as the parser leaves them). *)
#[warning="-register-all"]
Inductive node :=
| Text (data : string)
| Element (name : string) (attribs : list (string * string))
          (children : list node).

(** The children of the document root. *)
Definition document := list node.

Definition tagName (n : node) : string :=
  match n with Element t _ _ => t | Text _ => EmptyString end.

(** The text of a node: its text descendants, concatenated. *)
Fixpoint textContent (n : node) : string :=
  match n with
  | Text d => d
  | Element _ _ cs => String.concat EmptyString (map textContent cs)
  end.

(** The elements of a subtree, in document order. *)
Fixpoint subtree (n : node) : list node :=
  match n with
  | Text _ => []
  | Element _ _ cs => n :: flat_map subtree cs
  end.

Definition elements (d : document) : list node := flat_map subtree d.

(** The elements of a subtree that have an ancestor named [anc];
    [under] says that one was met above. *)
Fixpoint below (anc : string) (under : bool) (n : node) : list node :=
  match n with
  | Text _ => []
  | Element t _ cs =>
      (if under then [n] else [])
      ++ flat_map (below anc (under || String.eqb t anc)) cs
  end.

Definition descendantsOf (anc : string) (d : document) : list node :=
  flat_map (below anc false) d.

Fixpoint lookup (k : string) (l : list (string * string)) : option string :=
  match l with
  | [] => None
  | (k', v) :: r => if String.eqb k' k then Some v else lookup k r
  end.

(** [$(el).attr(name)]: [None] is [undefined]. *)
Definition attr (name : string) (n : node) : option string :=
  match n with
  | Element _ a _ => lookup name a
  | Text _ => None
  end.

Definition hasTag (t : string) (n : node) : bool := String.eqb (tagName n) t.

(** [$('t')]. *)
Definition select (t : string) (d : document) : list node :=
  filter (hasTag t) (elements d).

(** [$('t[a="v"]')]. *)
Definition selectAttrEq (t a v : string) (d : document) : list node :=
  filter (fun n => match attr a n with
                   | Some x => String.eqb x v
                   | None => false
                   end) (select t d).

(** [$('t[a^="p"]')]. *)
Definition selectAttrPrefix (t a p : string) (d : document) : list node :=
  filter (fun n => match attr a n with
                   | Some x => JS.startsWith x p
                   | None => false
                   end) (select t d).

(** [$('anc t1, anc t2, ...')]: each element once, in document order. *)
Definition selectBelow (anc : string) (tags : list string) (d : document)
  : list node :=
  filter (fun n => existsb (String.eqb (tagName n)) tags) (descendantsOf anc d).

(** [sel.text()]: the texts of the matched elements, concatenated. *)
Definition text (sel : list node) : string :=
  String.concat EmptyString (map textContent sel).

(** [sel.attr(name)]: the attribute of the first matched element. *)
Definition firstAttr (name : string) (sel : list node) : option string :=
  match sel with
  | [] => None
  | n :: _ => attr name n
  end.

End Dom.

(* ================================================================== *)
(** * Exceptions *)
(* ================================================================== *)

Module Exn.

(** A thrown value: the name of the error class and its message. *)
Record error := mkError { name : string; message : string }.

(** The completion of a computation that may throw.  An [async]
    function that rejects is a computation that throws at its [await]. *)
Inductive completion (A : Type) :=
| Normal (a : A)
| Throw (e : error).
Arguments Normal {A} a.
Arguments Throw {A} e.

Definition ret {A} (a : A) : completion A := Normal a.

Definition bind {A B} (c : completion A) (k : A -> completion B)
  : completion B :=
  match c with
  | Normal a => k a
  | Throw e => Throw e
  end.

(** [try { c } catch (e) { h e }]. *)
Definition try_catch {A} (c : completion A) (h : error -> completion A)
  : completion A :=
  match c with
  | Normal a => Normal a
  | Throw e => h e
  end.

Definition throws {A} (c : completion A) : bool :=
  match c with Normal _ => false | Throw _ => true end.

End Exn.

Declare Scope exn_scope.
Delimit Scope exn_scope with exn.
Notation "x <- c ;; k" := (Exn.bind c (fun x => k))
  (at level 61, c at next level, right associativity) : exn_scope.

(* ================================================================== *)
(** * The SEO analyser *)
(* ================================================================== *)

Module Seo.
Import JS Dom Exn.
Local Open Scope exn_scope.

(** ** What the analyser runs on *)

(** [new URL(s)]: the two properties the analyser reads. *)
Record URL := mkURL { hostname : string; origin : string }.

(** The three library calls of the analyser: [axios.get] resolves to
    the body of the response or rejects (no answer, or a status outside
    2xx), [cheerio.load] parses any string into a document, and the
    [URL] constructor throws a [TypeError] on a string that is not an
    absolute URL. *)
Record World := mkWorld {
  axios_get : string -> completion string;
  cheerio_load : string -> document;
  new_URL : string -> completion URL
}.

(** ** The report *)

Record KeywordSummary := mkKeywordSummary {
  description : string;
  keywords : string
}.

Record MetaDescription := mkMetaDescription {
  meta_found : bool;
  meta_length : nat;
  meta_content : string
}.

Record HeadingSummary := mkHeadingSummary {
  heading_count : nat;
  heading_examples : list string
}.

Record Image := mkImage { src : string; alt : string }.

Record ImageSummary := mkImageSummary {
  image_total : nat;
  missingAlt : nat;
  missingAltPercentage : number;
  image_examples : list Image
}.

Record LinkSummary := mkLinkSummary {
  link_total : nat;
  internal : nat;
  external : nat;
  ratio : string
}.

Record TitleData := mkTitleData {
  title_length : nat;
  title_content : string
}.

Record CanonicalTag := mkCanonicalTag {
  canonical_found : bool;
  canonical_url : string
}.

Record NoIndex := mkNoIndex { isNoIndex : bool }.

Record OpenGraph := mkOpenGraph { og_found : bool; og_count : nat }.

Record WWWCanonicalization := mkWWW {
  hasWWW : bool;
  recommendation : string
}.

(** [disallowCount] is absent when [exists] is false. *)
Record RobotsTxt := mkRobotsTxt {
  robots_exists : bool;
  disallowCount : option nat
}.

Record SchemaMarkup := mkSchema { schema_found : bool; schema_count : nat }.

Record SearchPreview := mkSearchPreview {
  preview_title : string;
  preview_url : string;
  preview_description : string;
  previewText : string
}.

Record SeoReport := mkSeoReport {
  commonKeywords : KeywordSummary;
  metaDescription : MetaDescription;
  headings_h1 : HeadingSummary;
  headings_h2 : HeadingSummary;
  images : ImageSummary;
  links : LinkSummary;
  title : TitleData;
  metaTags_canonical : CanonicalTag;
  metaTags_noindex : NoIndex;
  metaTags_openGraph : OpenGraph;
  technicalSEO_wwwCanonicalization : WWWCanonicalization;
  technicalSEO_robotsTxt : RobotsTxt;
  technicalSEO_schemaMarkup : SchemaMarkup;
  searchPreview : SearchPreview
}.

(** What [analyzeSEO] resolves to: the report, or the object whose only
    property is [error]. *)
Inductive AnalysisReport :=
| Report (r : SeoReport)
| Failure (error : string).

(** ** getCommonKeywords *)

Definition keywordTags : list string :=
  ["h1"; "h2"; "h3"; "h4"; "h5"; "h6"; "span"; "p"; "li"].

(** [text]: the lower-cased text of the selection. *)
Definition keywordText (d : document) : string :=
  toLowerCase (text (selectBelow "body" keywordTags d)).

(** [words]: the pieces longer than 3 code units. *)
Definition keywordWords (d : document) : list string :=
  filter (fun word => 3 <? String.length word) (split_ws (keywordText d)).

(** The body of the [forEach]: clean the word, then count it. *)
Definition countWord (wordCount : object) (word : string) : object :=
  let word := keepLowerAZ word in
  JS.set wordCount word (or_zero_plus_one (JS.get wordCount word)).

Definition wordCount (d : document) : object :=
  fold_left countWord (keywordWords d) [].

(** The comparator [(a, b) => b[1] - a[1]]. *)
Definition byCount (a b : string * value) : option Z :=
  minus (snd b) (snd a).

(** The array that is joined: sorted entries, the first ten, their keys. *)
Definition topKeywordList (d : document) : list string :=
  map fst (slice0 10 (sort byCount (wordCount d))).

Definition getCommonKeywords (d : document) : KeywordSummary :=
  {| description := "Top 10 most frequent keywords found on the page";
     keywords := str_or (join " " (topKeywordList d))
                        "No significant keywords found" |}.

(** ** The structural summaries *)

Definition getMetaDescription (d : document) : MetaDescription :=
  let description :=
    opt_or (firstAttr "content" (selectAttrEq "meta" "name" "description" d))
           "" in
  {| meta_found := 0 <? String.length description;
     meta_length := String.length description;
     meta_content := str_or description "No meta description found" |}.

Definition getHeadings (d : document) (tag : string) : HeadingSummary :=
  let headings := map (fun el => trim (textContent el)) (select tag d) in
  {| heading_count := List.length headings;
     heading_examples := slice0 5 headings |}.

Definition imageOf (el : node) : Image :=
  {| src := opt_or (attr "src" el) "";
     alt := opt_or (attr "alt" el) "" |}.

(** [!img.alt]. *)
Definition noAlt (img : Image) : bool :=
  match alt img with EmptyString => true | _ => false end.

Definition analyzeImages (d : document) : ImageSummary :=
  let images := map imageOf (select "img" d) in
  let missingAlt := List.length (filter noAlt images) in
  {| image_total := List.length images;
     missingAlt := missingAlt;
     missingAltPercentage :=
       num_or_zero
         (round (mul (div (ofNat missingAlt) (ofNat (List.length images)))
                     (ofNat 100)));
     image_examples := slice0 2 (filter noAlt images) |}.

(** [$('a').map((i, el) => $(el).attr('href')).get()]: cheerio's [map]
    drops the [undefined] results, so an anchor without [href] leaves no
    entry. *)
Fixpoint hrefs (anchors : list node) : list string :=
  match anchors with
  | [] => []
  | el :: r =>
      match attr "href" el with
      | Some href => href :: hrefs r
      | None => hrefs r
      end
  end.

Definition isInternal (domain href : string) : bool :=
  negb (String.eqb href "")
  && (includes href domain || startsWith href "/" || startsWith href "#").

Definition analyzeLinks (w : World) (d : document) (baseUrl : string)
  : completion LinkSummary :=
  let links := hrefs (select "a" d) in
  u <- new_URL w baseUrl ;;
  let domain := hostname u in
  let internal := List.length (filter (isInternal domain) links) in
  ret {| link_total := List.length links;
         internal := internal;
         external := List.length links - internal;
         ratio := toFixed1 (mul (div (ofNat internal)
                                     (ofNat (List.length links)))
                                (ofNat 100))
                  ++ "% internal" |}.

Definition getTitleData (d : document) : TitleData :=
  let title := str_or (text (select "title" d)) "" in
  {| title_length := String.length title;
     title_content := str_or title "No title found" |}.

Definition getCanonicalTag (d : document) : CanonicalTag :=
  let canonical :=
    opt_or (firstAttr "href" (selectAttrEq "link" "rel" "canonical" d)) "" in
  {| canonical_found := 0 <? String.length canonical;
     canonical_url := str_or canonical "No canonical tag found" |}.

Definition checkNoIndex (d : document) : NoIndex :=
  let robots :=
    opt_or (firstAttr "content" (selectAttrEq "meta" "name" "robots" d)) "" in
  {| isNoIndex := includes (toLowerCase robots) "noindex" |}.

Definition checkOpenGraph (d : document) : OpenGraph :=
  let ogTags := List.length (selectAttrPrefix "meta" "property" "og:" d) in
  {| og_found := 0 <? ogTags; og_count := ogTags |}.

Definition checkWWWCanonicalization (url : string) : WWWCanonicalization :=
  {| hasWWW := includes url "www.";
     recommendation :=
       "Ensure either www or non-www version redirects to the preferred version" |}.

Definition checkRobotsTxt (w : World) (url : string) : completion RobotsTxt :=
  try_catch
    (u <- new_URL w url ;;
     let domain := origin u in
     data <- axios_get w (domain ++ "/robots.txt") ;;
     ret {| robots_exists := true;
            disallowCount := Some (countMatches "Disallow:" data) |})
    (fun _ => ret {| robots_exists := false; disallowCount := None |}).

Definition checkSchema (d : document) : SchemaMarkup :=
  let schema :=
    List.length (selectAttrEq "script" "type" "application/ld+json" d) in
  {| schema_found := 0 <? schema; schema_count := schema |}.

Definition generateSearchPreview (d : document) (url : string)
  : SearchPreview :=
  let title := str_or (text (select "title" d)) "No title" in
  let description :=
    opt_or (firstAttr "content" (selectAttrEq "meta" "name" "description" d))
           "No description" in
  {| preview_title := title;
     preview_url := url;
     preview_description := description;
     previewText := title ++ " - " ++ String.substring 0 100 description
                    ++ "..." |}.

(** ** analyzeSEO *)

Definition failureMessage : string := "Failed to analyze the page".

Definition analyzeSEO (w : World) (url : string) : completion AnalysisReport :=
  try_catch
    (html <- axios_get w url ;;
     let d := cheerio_load w html in
     let kw := getCommonKeywords d in
     let md := getMetaDescription d in
     let h1 := getHeadings d "h1" in
     let h2 := getHeadings d "h2" in
     let im := analyzeImages d in
     ln <- analyzeLinks w d url ;;
     let ti := getTitleData d in
     let ca := getCanonicalTag d in
     let ni := checkNoIndex d in
     let og := checkOpenGraph d in
     let ww := checkWWWCanonicalization url in
     rb <- checkRobotsTxt w url ;;
     let sc := checkSchema d in
     let sp := generateSearchPreview d url in
     ret (Report {| commonKeywords := kw;
                    metaDescription := md;
                    headings_h1 := h1;
                    headings_h2 := h2;
                    images := im;
                    links := ln;
                    title := ti;
                    metaTags_canonical := ca;
                    metaTags_noindex := ni;
                    metaTags_openGraph := og;
                    technicalSEO_wwwCanonicalization := ww;
                    technicalSEO_robotsTxt := rb;
                    technicalSEO_schemaMarkup := sc;
                    searchPreview := sp |}))
    (fun error => ret (Failure failureMessage)).

End Seo.

(* ================================================================== *)
(** * Asynchronous code with effects *)
(* ================================================================== *)

Module Eff.
Import Exn.

Inductive Method := GET | HEAD.
Inductive Redirect := follow | manual.

(** The argument of [fetch]: the address, and the [method] and
    [redirect] options ([GET] and [follow] when they are left out). *)
Record Request := mkRequest {
  url : string;
  method : Method;
  redirect : Redirect
}.

(** What a function does that can be seen from outside, in order. *)
Inductive Event :=
| Fetched (r : Request)      (* a call of [fetch] *)
| Waited (ms : N)            (* [setTimeout(resolve, ms)], awaited *)
| Logged (label : string) (err : error).  (* [console.error(label, err)] *)

(** How a computation ends: it returns, it throws, or the model ran out
    of fuel for a loop.  The last is no exception: no [catch] sees it. *)
Inductive outcome (A : Type) :=
| Done (a : A)
| Thrown (e : error)
| OutOfFuel.
Arguments Done {A} a.
Arguments Thrown {A} e.
Arguments OutOfFuel {A}.

(** A computation over the local variables [L] of its function and the
    events so far.  Assignments made before a [throw] stay made. *)
Definition M (L A : Type) : Type :=
  L * list Event -> outcome A * (L * list Event).

Definition ret {L A} (a : A) : M L A := fun s => (Done a, s).

Definition bind {L A B} (c : M L A) (k : A -> M L B) : M L B :=
  fun s => match c s with
           | (Done a, s') => k a s'
           | (Thrown e, s') => (Thrown e, s')
           | (OutOfFuel, s') => (OutOfFuel, s')
           end.

Definition throw {L A} (e : error) : M L A := fun s => (Thrown e, s).

Definition outOfFuel {L A} : M L A := fun s => (OutOfFuel, s).

Definition try_catch {L A} (c : M L A) (h : error -> M L A) : M L A :=
  fun s => match c s with
           | (Thrown e, s') => h e s'
           | r => r
           end.

Definition emit {L} (e : Event) : M L unit :=
  fun s => (Done tt, (fst s, (snd s ++ [e])%list)).

Definition read {L} : M L L := fun s => (Done (fst s), s).

Definition update {L} (f : L -> L) : M L unit :=
  fun s => (Done tt, (f (fst s), snd s)).

(** [for (const x of l) { body x }]. *)
Fixpoint forOf {L A} (l : list A) (body : A -> M L unit) : M L unit :=
  match l with
  | [] => ret tt
  | x :: r => bind (body x) (fun _ => forOf r body)
  end.

Definition settle {A} (c : completion A) : outcome A :=
  match c with
  | Normal a => Done a
  | Throw e => Thrown e
  end.

(** Await a promise that settles as [c]. *)
Definition await {L A} (c : completion A) : M L A := fun s => (settle c, s).

End Eff.

Declare Scope eff_scope.
Delimit Scope eff_scope with eff.
Notation "x <- c ;; k" := (Eff.bind c (fun x => k))
  (at level 61, c at next level, right associativity) : eff_scope.
Notation "c ;; k" := (Eff.bind c (fun _ => k))
  (at level 61, right associativity) : eff_scope.

(* ================================================================== *)
(** * The security tab *)
(* ================================================================== *)

Module Security.
Import JS Exn Eff.
Local Open Scope eff_scope.

(** ** Types and interfaces *)

Record Protocol := mkProtocol { protocol_name : string; version : string }.

Record SslEndpointDetails := mkSslEndpointDetails {
  protocols : option (list Protocol);
  cert_subject : option string;
  key : option (string * nat);          (* [alg] and [size] *)
  forwardSecrecy : option bool
}.

Record SslEndpoint := mkSslEndpoint {
  ipAddress : string;
  grade : option string;
  details : option SslEndpointDetails
}.

Record SslData := mkSslData {
  endpoints : list SslEndpoint;
  ssl_status : option string
}.

Record SecurityHeaders := mkSecurityHeaders {
  strictTransportSecurity : option string;
  xFrameOptions : option string;
  xXssProtection : option string;
  contentSecurityPolicy : option string;
  xContentTypeOptions : option string
}.

Record AdminUrlVuln := mkAdminUrlVuln {
  admin_url : string;
  admin_status : nat;
  admin_accessible : bool
}.

Record SensitiveFileVuln := mkSensitiveFileVuln {
  file : string;
  file_accessible : bool;
  file_status : nat
}.

Record Vulnerabilities := mkVulnerabilities {
  adminUrls : list AdminUrlVuln;
  directoryIndexing : bool;
  sensitiveFiles : list SensitiveFileVuln
}.

(** ** The network *)

(** A response: its status, its headers (names in lower case, one entry
    per name) and what reading the body gives, as text and as JSON. *)
Record Response := mkResponse {
  status : nat;
  headers : list (string * string);
  text : completion string;
  json : completion SslData
}.

(** [response.ok]. *)
Definition ok (r : Response) : bool :=
  (200 <=? status r) && (status r <=? 299).

(** [response.headers.get(name)]. *)
Definition headers_get (r : Response) (name : string) : option string :=
  Dom.lookup name (headers r).

(** [v || null]. *)
Definition or_null (v : option string) : option string :=
  match v with
  | Some EmptyString => None
  | _ => v
  end.

(** The network answers a request, given all that happened before it,
    with a response or with a rejection. *)
Definition Network := list Event -> Request -> completion Response.

Definition fetch {L} (net : Network) (r : Request) : M L Response :=
  fun s => (settle (net (snd s) r), (fst s, (snd s ++ [Fetched r])%list)).

Definition wait {L} (ms : N) : M L unit := emit (Waited ms).

Definition console_error {L} (label : string) (err : error) : M L unit :=
  emit (Logged label err).

Definition Error (msg : string) : error := mkError "Error" msg.

(** ** checkSSL *)

Definition maxAttempts : nat := 30.
Definition interval : N := 10000%N.

Definition analyzeUrl (hostname query : string) : string :=
  "https://api.ssllabs.com/api/v3/analyze?host=" ++ hostname ++ query.

(** [data.status === s]; the property may be missing. *)
Definition statusIs (data : SslData) (s : string) : bool :=
  match ssl_status data with
  | Some x => String.eqb x s
  | None => false
  end.

(** The [while (attempts < maxAttempts)] loop, from the test of its
    condition.  A [return] inside the loop is the normal completion,
    leaving the loop by its test is the [throw] that follows it.  The
    recursion is on [fuel], one unit for each turn; [pollLoop_spec]
    below shows that the loop is never cut short once [fuel] covers
    [maxAttempts - attempts]. *)
Fixpoint pollLoop (net : Network) (hostname : string) (fuel : nat)
  : M nat SslData :=
  attempts <- read ;;
  if attempts <? maxAttempts then
    match fuel with
    | 0 => outOfFuel
    | S fuel' =>
        wait interval ;;
        pollResponse <- fetch net (mkRequest (analyzeUrl hostname "&all=done")
                                             GET follow) ;;
        if negb (ok pollResponse) then throw (Error "SSL Labs polling error")
        else
          data <- await (json pollResponse) ;;
          if statusIs data "READY" then ret data
          else if statusIs data "ERROR"
               then throw (Error "SSL Labs analysis failed")
               else update (fun attempts => attempts + 1) ;;
                    pollLoop net hostname fuel'
    end
  else throw (Error "SSL analysis timeout").

(** The result is [None] for [null]. *)
Definition checkSSL (net : Network) (hostname : string)
  : M nat (option SslData) :=
  try_catch
    (startResponse <- fetch net (mkRequest
                                   (analyzeUrl hostname "&startNew=on&all=done")
                                   GET follow) ;;
     if negb (ok startResponse) then throw (Error "SSL Labs API error")
     else
       update (fun _ => 0) ;;
       data <- pollLoop net hostname maxAttempts ;;
       ret (Some data))
    (fun err => console_error "SSL check failed:" err ;; ret None).

(** ** checkSecurityHeaders *)

(** The two objects the function fills in. *)
Record Locals := mkLocals {
  l_headers : SecurityHeaders;
  l_vulns : Vulnerabilities
}.

Definition noHeaders : SecurityHeaders :=
  mkSecurityHeaders None None None None None.

Definition noVulns : Vulnerabilities := mkVulnerabilities [] false [].

Definition setHeaders (h : SecurityHeaders) (l : Locals) : Locals :=
  mkLocals h (l_vulns l).

Definition pushAdminUrl (v : AdminUrlVuln) (l : Locals) : Locals :=
  mkLocals (l_headers l)
           (mkVulnerabilities (adminUrls (l_vulns l) ++ [v])%list
                              (directoryIndexing (l_vulns l))
                              (sensitiveFiles (l_vulns l))).

Definition setDirectoryIndexing (b : bool) (l : Locals) : Locals :=
  mkLocals (l_headers l)
           (mkVulnerabilities (adminUrls (l_vulns l)) b
                              (sensitiveFiles (l_vulns l))).

Definition pushSensitiveFile (v : SensitiveFileVuln) (l : Locals) : Locals :=
  mkLocals (l_headers l)
           (mkVulnerabilities (adminUrls (l_vulns l))
                              (directoryIndexing (l_vulns l))
                              (sensitiveFiles (l_vulns l) ++ [v])).

Definition adminPaths : list string :=
  ["/admin"; "/administrator"; "/wp-admin"; "/admin.php"; "/login";
   "/dashboard"; "/cpanel"; "/control"; "/manager"].

Definition sensitiveFilePaths : list string :=
  ["/.env"; "/config.php"; "/wp-config.php"; "/.htaccess"; "/robots.txt";
   "/sitemap.xml"; "/backup.sql"; "/database.sql"; "/.git/config";
   "/composer.json"; "/package.json"].

(** The first [try]: the five assignments cannot throw, so they are one
    step. *)
Definition checkHeaders (net : Network) (baseUrl : string) : M Locals unit :=
  try_catch
    (response <- fetch net (mkRequest baseUrl HEAD follow) ;;
     update (setHeaders
       {| strictTransportSecurity :=
            or_null (headers_get response "strict-transport-security");
          xFrameOptions := or_null (headers_get response "x-frame-options");
          xXssProtection := or_null (headers_get response "x-xss-protection");
          contentSecurityPolicy :=
            or_null (headers_get response "content-security-policy");
          xContentTypeOptions :=
            or_null (headers_get response "x-content-type-options") |}))
    (fun err => console_error "Header check failed:" err).

(** The body of the first [for]. *)
Definition probeAdmin (net : Network) (baseUrl path : string) : M Locals unit :=
  try_catch
    (adminResponse <- fetch net (mkRequest (baseUrl ++ path) HEAD manual) ;;
     if negb (status adminResponse =? 404) && negb (status adminResponse =? 0)
     then update (pushAdminUrl
                    {| admin_url := path;
                       admin_status := status adminResponse;
                       admin_accessible := status adminResponse <? 400 |})
     else ret tt)
    (fun err => ret tt).

Definition checkDirectoryIndexing (net : Network) (baseUrl : string)
  : M Locals unit :=
  try_catch
    (dirResponse <- fetch net (mkRequest (baseUrl ++ "/") GET follow) ;;
     dirText <- await (text dirResponse) ;;
     if includes dirText "Index of /"
        || includes dirText "Directory Listing"
        || includes dirText "<title>Index of"
     then update (setDirectoryIndexing true)
     else ret tt)
    (fun err => ret tt).

(** The body of the second [for]. *)
Definition probeFile (net : Network) (baseUrl file : string) : M Locals unit :=
  try_catch
    (fileResponse <- fetch net (mkRequest (baseUrl ++ file) HEAD follow) ;;
     if status fileResponse =? 200
     then update (pushSensitiveFile
                    {| file := file;
                       file_accessible := true;
                       file_status := status fileResponse |})
     else ret tt)
    (fun err => ret tt).

Definition checkSecurityHeaders (net : Network) (hostname : string)
  : M Locals (SecurityHeaders * Vulnerabilities) :=
  let baseUrl := "https://" ++ hostname in
  update (fun _ => mkLocals noHeaders noVulns) ;;
  checkHeaders net baseUrl ;;
  forOf adminPaths (probeAdmin net baseUrl) ;;
  checkDirectoryIndexing net baseUrl ;;
  forOf sensitiveFilePaths (probeFile net baseUrl) ;;
  l <- read ;;
  ret (l_headers l, l_vulns l).

(** Running a function from its call: no event yet; the locals get their
    values from the function itself. *)
Definition run {L A} (init : L) (c : M L A)
  : outcome A * (L * list Event) :=
  c (init, []).

Definition runSSL (net : Network) (hostname : string) :=
  run 0 (checkSSL net hostname).

Definition runSecurityHeaders (net : Network) (hostname : string) :=
  run (mkLocals noHeaders noVulns) (checkSecurityHeaders net hostname).

Definition result {L A} (r : outcome A * (L * list Event)) : outcome A :=
  fst r.

Definition events {L A} (r : outcome A * (L * list Event)) : list Event :=
  snd (snd r).

End Security.

(* ================================================================== *)
(** * Definitions used to state the properties *)
(* ================================================================== *)

Module SeoSpec.
Import JS Dom Exn Seo.

(** A document has no element named [t]. *)
Definition noElement (t : string) (d : document) : Prop :=
  forall n, In n (elements d) -> tagName n <> t.

(** How often a token occurs among the cleaned words of the page: its
    frequency. *)
Definition cleanedWords (d : document) : list string :=
  map keepLowerAZ (keywordWords d).

Definition frequency (d : document) (token : string) : nat :=
  count_occ string_dec (cleanedWords d) token.

(** The table holds, for the words seen so far, the number of times each
    was seen. *)
Definition counted (seen : list string) (o : object) : Prop :=
  forall k, getOwn o k = match count_occ string_dec seen k with
                         | 0 => None
                         | S n => Some (Num (S n))
                         end.

(** The number stored in an entry of the table. *)
Definition storedCount (e : string * value) : nat :=
  match snd e with Num n => n | _ => 0 end.

Definition isNum (e : string * value) : Prop :=
  exists n, snd e = Num n.

(** A list of numbers that never goes up. *)
Fixpoint nonIncreasing (l : list nat) : Prop :=
  match l with
  | [] => True
  | x :: r => (match r with [] => True | y :: _ => y <= x end)
              /\ nonIncreasing r
  end.

(** A token as the keyword summary promises it: letters a-z only, more
    than three of them. *)
Fixpoint allLowerAZ (s : string) : bool :=
  match s with
  | EmptyString => true
  | String c r => isLowerAZ c && allLowerAZ r
  end.

Definition properKeyword (token : string) : bool :=
  allLowerAZ token && (3 <? String.length token).

(** Two [img] elements that differ at most in that the first has an
    empty [alt] where the second has none. *)
Definition sameButEmptyAlt (el el' : node) : Prop :=
  attr "src" el = attr "src" el'
  /\ (attr "alt" el = attr "alt" el'
      \/ (attr "alt" el = Some "" /\ attr "alt" el' = None)).

(** ** Pages and worlds of the examples *)

Definition page (body : list node) : document :=
  [Element "html" [] [Element "head" [] []; Element "body" [] body]].

Definition paragraph (s : string) : node := Element "p" [] [Text s].

Definition isHostChar (c : ascii) : bool :=
  isLowerAZ c || Ascii.eqb c ".".

Fixpoint hostOf (s : string) : string :=
  match s with
  | EmptyString => EmptyString
  | String c r =>
      if Ascii.eqb c "/" || Ascii.eqb c "?" || Ascii.eqb c "#"
      then EmptyString else String c (hostOf r)
  end.

Fixpoint allHostChars (s : string) : bool :=
  match s with
  | EmptyString => true
  | String c r => isHostChar c && allHostChars r
  end.

Fixpoint dropPrefix (p s : string) : option string :=
  match p, s with
  | EmptyString, _ => Some s
  | String a p', String b s' => if Ascii.eqb a b then dropPrefix p' s' else None
  | String _ _, EmptyString => None
  end.

Definition invalidURL : error := mkError "TypeError" "Invalid URL".

Definition parseAfter (scheme rest : string) : completion URL :=
  let host := hostOf rest in
  if negb (String.eqb host "") && allHostChars host
  then Normal (mkURL host (scheme ++ host))
  else Throw invalidURL.

(** A fragment of the [URL] constructor: [http://] or [https://], a host
    of lower-case letters and dots, then nothing or a path, a query or
    a fragment.  It rejects every other string; the constructor does so
    too for a string without a scheme, the one case the examples rely
    on. *)
Definition basicURL (s : string) : completion URL :=
  match dropPrefix "https://" s with
  | Some rest => parseAfter "https://" rest
  | None =>
      match dropPrefix "http://" s with
      | Some rest => parseAfter "http://" rest
      | None => Throw invalidURL
      end
  end.

Definition emptyHtml : string := "<html><head></head><body></body></html>".

Definition networkError : error := mkError "AxiosError" "Network Error".

(** A world that serves an empty page at one address and nothing else. *)
Definition serving (address : string) : World :=
  {| axios_get := fun u => if String.eqb u address then Normal emptyHtml
                           else Throw networkError;
     cheerio_load := fun _ => page [];
     new_URL := basicURL |}.


End SeoSpec.

Module SecuritySpec.
Import JS Exn Eff Security.

Definition startRequest (hostname : string) : Request :=
  mkRequest (analyzeUrl hostname "&startNew=on&all=done") GET follow.

Definition pollRequest (hostname : string) : Request :=
  mkRequest (analyzeUrl hostname "&all=done") GET follow.

(** [k] turns of the polling loop as they show from outside: each one
    wait of [interval], then one status request. *)
Fixpoint pollRounds (hostname : string) (k : nat) : list Event :=
  match k with
  | 0 => []
  | S k' => Waited interval :: Fetched (pollRequest hostname)
            :: pollRounds hostname k'
  end.

(** The time spent in awaited timers. *)
Fixpoint waited (evs : list Event) : N :=
  match evs with
  | [] => 0%N
  | Waited ms :: r => (ms + waited r)%N
  | _ :: r => waited r
  end.

(** What [checkSSL] logs last: nothing when it has data, the error it
    caught when it has none. *)
Definition closing (out : option SslData) (err : error) : list Event :=
  match out with
  | Some _ => []
  | None => [Logged "SSL check failed:" err]
  end.

Definition timeout : error := Error "SSL analysis timeout".

Definition headRequest (hostname : string) : Request :=
  mkRequest ("https://" ++ hostname) HEAD follow.

Definition adminRequest (hostname path : string) : Request :=
  mkRequest (("https://" ++ hostname) ++ path) HEAD manual.

Definition dirRequest (hostname : string) : Request :=
  mkRequest (("https://" ++ hostname) ++ "/") GET follow.

Definition fileRequest (hostname path : string) : Request :=
  mkRequest (("https://" ++ hostname) ++ path) HEAD follow.

(** The header check as a function of the network. *)
Definition headerScan (net : Network) (hostname : string) : SecurityHeaders :=
  match net [] (headRequest hostname) with
  | Normal response =>
      {| strictTransportSecurity :=
           or_null (headers_get response "strict-transport-security");
         xFrameOptions := or_null (headers_get response "x-frame-options");
         xXssProtection := or_null (headers_get response "x-xss-protection");
         contentSecurityPolicy :=
           or_null (headers_get response "content-security-policy");
         xContentTypeOptions :=
           or_null (headers_get response "x-content-type-options") |}
  | Throw _ => noHeaders
  end.

(** What the header check leaves in the log. *)
Definition headerEvents (net : Network) (hostname : string) : list Event :=
  Fetched (headRequest hostname)
  :: match net [] (headRequest hostname) with
     | Normal _ => []
     | Throw e => [Logged "Header check failed:" e]
     end.

Definition adminEvents (hostname : string) (paths : list string)
  : list Event :=
  map (fun path => Fetched (adminRequest hostname path)) paths.

Definition fileEvents (hostname : string) (paths : list string)
  : list Event :=
  map (fun path => Fetched (fileRequest hostname path)) paths.

(** The three scans as functions of the network; [log] is what happened
    before the scan. *)
Fixpoint adminScan (net : Network) (hostname : string) (log : list Event)
         (paths : list string) : list AdminUrlVuln :=
  match paths with
  | [] => []
  | path :: r =>
      (match net log (adminRequest hostname path) with
       | Normal resp =>
           if negb (status resp =? 404) && negb (status resp =? 0)
           then [mkAdminUrlVuln path (status resp) (status resp <? 400)]
           else []
       | Throw _ => []
       end)
      ++ adminScan net hostname (log ++ [Fetched (adminRequest hostname path)]) r
  end.

Definition dirScan (net : Network) (hostname : string) (log : list Event)
  : bool :=
  match net log (dirRequest hostname) with
  | Normal resp =>
      match text resp with
      | Normal dirText =>
          includes dirText "Index of /"
          || includes dirText "Directory Listing"
          || includes dirText "<title>Index of"
      | Throw _ => false
      end
  | Throw _ => false
  end.

Fixpoint fileScan (net : Network) (hostname : string) (log : list Event)
         (paths : list string) : list SensitiveFileVuln :=
  match paths with
  | [] => []
  | path :: r =>
      (match net log (fileRequest hostname path) with
       | Normal resp =>
           if status resp =? 200
           then [mkSensitiveFileVuln path true (status resp)]
           else []
       | Throw _ => []
       end)
      ++ fileScan net hostname (log ++ [Fetched (fileRequest hostname path)]) r
  end.

(** [l1] is [l2] with some entries left out, the others in their order. *)
Inductive Subseq {A : Type} : list A -> list A -> Prop :=
| Subseq_nil : Subseq [] []
| Subseq_skip x l1 l2 : Subseq l1 l2 -> Subseq l1 (x :: l2)
| Subseq_keep x l1 l2 : Subseq l1 l2 -> Subseq (x :: l1) (x :: l2).

(** ** Networks of the examples *)

Definition plain (st : nat) : Response :=
  mkResponse st [] (Normal "") (Throw (mkError "SyntaxError" "Unexpected end of JSON input")).

Definition failedToFetch : error := mkError "TypeError" "Failed to fetch".

(** A host whose root does not answer, with a redirecting [/admin], a
    failing [/cpanel], an exposed [/.env]; every other path is absent. *)
Definition unreachableRoot : Network :=
  fun _ r =>
    if String.eqb (url r) "https://h" then Throw failedToFetch
    else if String.eqb (url r) "https://h/admin" then Normal (plain 301)
    else if String.eqb (url r) "https://h/cpanel" then Normal (plain 500)
    else if String.eqb (url r) "https://h/.env" then Normal (plain 200)
    else Normal (plain 404).

(** A grading service that never gets past [IN_PROGRESS]. *)
Definition neverReady : Network :=
  fun _ _ => Normal (mkResponse 200 [] (Normal "")
                       (Normal (mkSslData [] (Some "IN_PROGRESS")))).

End SecuritySpec.

(* ================================================================== *)
(** * The rest of the security tab *)
(* ================================================================== *)

Module Tab.
Import JS Exn Eff Security.
Local Open Scope eff_scope.

(** ** extractHostname *)

(** [new_URL] is the [URL] constructor, as in the analyser. *)
Definition extractHostname (new_URL : string -> completion Seo.URL)
           (url : string) : string :=
  match new_URL (if startsWith url "http" then url
                 else "https://" ++ url) with
  | Normal urlObj => Seo.hostname urlObj
  | Throw _ => url
  end.

(** ** getGradeColor *)

(** [None] is [undefined]. *)
Definition getGradeColor (grade : option string) : string :=
  match grade with
  | Some g =>
      if String.eqb g "A+" || String.eqb g "A" then "text-green-600"
      else if String.eqb g "B" then "text-yellow-600"
      else if String.eqb g "C" || String.eqb g "D" then "text-orange-600"
      else if String.eqb g "F" then "text-red-600"
      else "text-gray-600"
  | None => "text-gray-600"
  end.

(** ** SecurityStatus *)

(** [status !== null && status !== undefined]. *)
Definition isSecure (status : option string) : bool :=
  match status with Some _ => true | None => false end.

(** The text under the label. *)
Definition statusText (status : option string) : string :=
  match status with
  | Some s =>
      if negb (String.eqb s "") && (50 <? String.length s)
      then String.substring 0 50 s ++ "..."
      else s
  | None => "Not implemented"
  end.

(** ** analyzeWebsite *)

(** The five state variables of the component. *)
Record TabState := mkTabState {
  loading : bool;
  sslData : option SslData;
  securityHeaders : option SecurityHeaders;
  vulnerabilities : option Vulnerabilities;
  tab_error : string
}.

Definition setLoading (b : bool) (st : TabState) : TabState :=
  mkTabState b (sslData st) (securityHeaders st) (vulnerabilities st)
             (tab_error st).

Definition setSslData (v : option SslData) (st : TabState) : TabState :=
  mkTabState (loading st) v (securityHeaders st) (vulnerabilities st)
             (tab_error st).

Definition setSecurityHeaders (v : option SecurityHeaders) (st : TabState)
  : TabState :=
  mkTabState (loading st) (sslData st) v (vulnerabilities st) (tab_error st).

Definition setVulnerabilities (v : option Vulnerabilities) (st : TabState)
  : TabState :=
  mkTabState (loading st) (sslData st) (securityHeaders st) v (tab_error st).

Definition setError (msg : string) (st : TabState) : TabState :=
  mkTabState (loading st) (sslData st) (securityHeaders st)
             (vulnerabilities st) msg.

(** An error in a template literal: [Error.prototype.toString]. *)
Definition errorString (e : error) : string :=
  match name e, message e with
  | EmptyString, m => m
  | n, EmptyString => n
  | n, m => n ++ ": " ++ m
  end.

(** [try { c } finally { f }]. *)
Definition try_finally {L A} (c : M L A) (f : M L unit) : M L A :=
  fun s => match c s with
           | (r, s') =>
               match f s' with
               | (Done _, s'') => (r, s'')
               | (Thrown e, s'') => (Thrown e, s'')
               | (OutOfFuel, s'') => (OutOfFuel, s'')
               end
           end.

(** [await Promise.all([p, q])] for two calls that have run to their
    ends, each on its own locals and with its own view of the network:
    the pair of the results, or the rejection (that of [p] when both
    reject). *)
Definition promiseAll {L L1 L2 A B}
           (p : outcome A * (L1 * list Event))
           (q : outcome B * (L2 * list Event)) : M L (A * B) :=
  fun s => (match fst p, fst q with
            | OutOfFuel, _ | _, OutOfFuel => OutOfFuel
            | Thrown e, _ => Thrown e
            | _, Thrown e => Thrown e
            | Done a, Done b => Done (a, b)
            end, s).

Definition analyzeWebsite (new_URL : string -> completion Seo.URL)
           (sslNet secNet : Network) (url : string) : M TabState unit :=
  if String.eqb url "" then ret tt
  else
    update (setLoading true) ;;
    update (setError "") ;;
    update (setSslData None) ;;
    update (setSecurityHeaders None) ;;
    update (setVulnerabilities None) ;;
    try_finally
      (try_catch
         (let hostname := extractHostname new_URL url in
          results <- promiseAll (runSSL sslNet hostname)
                                (runSecurityHeaders secNet hostname) ;;
          let sslResult := fst results in
          let securityResult := snd results in
          update (setSslData sslResult) ;;
          update (setSecurityHeaders (Some (fst securityResult))) ;;
          update (setVulnerabilities (Some (snd securityResult))))
         (fun err => update (setError ("Analysis failed: "
                                       ++ errorString err))))
      (update (setLoading false)).

End Tab.

(* ================================================================== *)
(** * More definitions used to state properties *)
(* ================================================================== *)

Module MoreSpec.
Import JS Dom Exn Eff Seo Security SeoSpec SecuritySpec Tab.

(** ** Strings *)



(** ** Order *)

(** [a] stands before an occurrence of [b] in [l]. *)
Definition precedes {A : Type} (a b : A) (l : list A) : Prop :=
  exists l1 l2, l = (l1 ++ a :: l2)%list /\ In b l2.

(** The distinct entries of [l] in the order in which they are first
    seen, after those of [seen]. *)
Fixpoint firstSeenFrom (seen l : list string) : list string :=
  match l with
  | [] => seen
  | x :: r =>
      firstSeenFrom (if in_dec string_dec x seen then seen
                     else (seen ++ [x])%list) r
  end.

Definition firstSeen (l : list string) : list string := firstSeenFrom [] l.

(** The report [r] with another robots.txt entry. *)
Definition withRobots (rb : RobotsTxt) (r : SeoReport) : SeoReport :=
  {| commonKeywords := commonKeywords r;
     metaDescription := metaDescription r;
     headings_h1 := headings_h1 r;
     headings_h2 := headings_h2 r;
     images := images r;
     links := links r;
     title := title r;
     metaTags_canonical := metaTags_canonical r;
     metaTags_noindex := metaTags_noindex r;
     metaTags_openGraph := metaTags_openGraph r;
     technicalSEO_wwwCanonicalization := technicalSEO_wwwCanonicalization r;
     technicalSEO_robotsTxt := rb;
     technicalSEO_schemaMarkup := technicalSEO_schemaMarkup r;
     searchPreview := searchPreview r |}.

(** ** Percentages *)

(** [m / n * 100], as [analyzeLinks] and [analyzeImages] compute it. *)
Definition scaled (m n : nat) : number :=
  mul (div (ofNat m) (ofNat n)) (ofNat 100).

(** ** Documents *)

Definition hasHref (el : node) : bool :=
  match attr "href" el with Some _ => true | None => false end.

(** An element with a non-empty [alt]. *)
Definition hasAlt (el : node) : bool :=
  match attr "alt" el with
  | Some EmptyString | None => false
  | Some _ => true
  end.

Definition image (attribs : list (string * string)) : node :=
  Element "img" attribs [].

Definition anchor (href : string) : node :=
  Element "a" [("href", href)] [].

(** A world that serves the empty page at one address and one robots
    file at another. *)
Definition servingRobots (address robotsAddress robots : string) : World :=
  {| axios_get := fun u => if String.eqb u address then Normal emptyHtml
                           else if String.eqb u robotsAddress
                                then Normal robots
                                else Throw networkError;
     cheerio_load := fun _ => page [];
     new_URL := basicURL |}.

(** ** The polling loop, turn by turn *)

(** The log when the answer to poll number [i] (from 0) is due. *)
Definition logBefore (hostname : string) (i : nat) : list Event :=
  Fetched (startRequest hostname)
  :: pollRounds hostname i ++ [Waited interval].

(** The log after the start request and [a] turns. *)
Definition logAfter (hostname : string) (a : nat) : list Event :=
  Fetched (startRequest hostname) :: pollRounds hostname a.

Definition started (net : Network) (hostname : string) : Prop :=
  exists r, net [] (startRequest hostname) = Normal r /\ ok r = true.

(** Poll [i] is answered with a status that is neither READY nor ERROR. *)
Definition pendingAt (net : Network) (hostname : string) (i : nat) : Prop :=
  exists r data,
    net (logBefore hostname i) (pollRequest hostname) = Normal r
    /\ ok r = true
    /\ json r = Normal data
    /\ statusIs data "READY" = false
    /\ statusIs data "ERROR" = false.

(** Poll [i] is answered with [data], whose status is READY. *)
Definition readyAt (net : Network) (hostname : string) (i : nat)
           (data : SslData) : Prop :=
  exists r,
    net (logBefore hostname i) (pollRequest hostname) = Normal r
    /\ ok r = true
    /\ json r = Normal data
    /\ statusIs data "READY" = true.

(** Poll [i] ends the polling with the error [err]: the request is
    rejected, the response is not ok, its body is no JSON, or the
    status is ERROR. *)
Definition failsAt (net : Network) (hostname : string) (i : nat)
           (err : error) : Prop :=
  net (logBefore hostname i) (pollRequest hostname) = Throw err
  \/ (exists r,
        net (logBefore hostname i) (pollRequest hostname) = Normal r
        /\ ((ok r = false /\ err = Error "SSL Labs polling error")
            \/ (ok r = true /\ json r = Throw err)
            \/ (exists data,
                  ok r = true /\ json r = Normal data
                  /\ statusIs data "READY" = false
                  /\ statusIs data "ERROR" = true
                  /\ err = Error "SSL Labs analysis failed"))).

(** The requests among the events, in order. *)
Fixpoint requests (evs : list Event) : list Request :=
  match evs with
  | [] => []
  | Fetched r :: rest => r :: requests rest
  | _ :: rest => requests rest
  end.

Definition probeRequests (hostname : string) : list Request :=
  headRequest hostname
  :: map (adminRequest hostname) adminPaths
  ++ [dirRequest hostname]
  ++ map (fileRequest hostname) sensitiveFilePaths.

Definition headerFields (hs : SecurityHeaders) : list (option string) :=
  [strictTransportSecurity hs; xFrameOptions hs; xXssProtection hs;
   contentSecurityPolicy hs; xContentTypeOptions hs].

(** ** Networks of the examples *)

Definition answering (st : string) : Response :=
  mkResponse 200 [] (Normal "") (Normal (mkSslData [] (Some st))).

(** The grade is READY from the second poll on. *)
Definition readySecond : Network :=
  fun log _ => Normal (answering (if 3 <? List.length log then "READY"
                                  else "IN_PROGRESS")).

(** The grading service refuses the start request. *)
Definition refusing : Network :=
  fun _ _ => Normal (mkResponse 529 [] (Normal "")
                                (Normal (mkSslData [] None))).

(** The second poll reports ERROR. *)
Definition errorSecond : Network :=
  fun log _ => Normal (answering (if 3 <? List.length log then "ERROR"
                                  else "IN_PROGRESS")).

Definition initialTab : TabState := mkTabState false None None None "".

End MoreSpec.

(* ================================================================== *)
(** * Properties of the SEO analyser *)
(* ================================================================== *)

Module SeoProofs.
Import JS Dom Exn Seo SeoSpec.
Local Open Scope exn_scope.

(** ** Strings *)

Lemma prefix_iff (p s : string) :
  String.prefix p s = true <-> exists post, s = p ++ post.
Proof.
  revert s; induction p as [|a p IH]; intros s; simpl.
  - destruct s; split; eauto.
  - destruct s as [|b s]; simpl.
    + split; [discriminate | intros [post H]; discriminate].
    + destruct (Ascii.ascii_dec a b) as [->|Hab].
      * rewrite IH. split; intros [post H]; exists post.
        -- now rewrite H.
        -- now inversion H.
      * split; [discriminate | intros [post H]; inversion H; congruence].
Qed.

Lemma includes_iff (s sub : string) :
  includes s sub = true <-> exists pre post, s = pre ++ sub ++ post.
Proof.
  induction s as [|c r IH]; cbn [includes].
  - rewrite orb_false_r, prefix_iff. split.
    + intros [post H]. exists "", post. exact H.
    + intros [pre [post H]]. destruct pre; [eauto | discriminate].
  - rewrite orb_true_iff, prefix_iff, IH. split.
    + intros [[post H] | [pre [post H]]].
      * exists "", post. exact H.
      * exists (String c pre), post. simpl. now rewrite H.
    + intros [pre [post H]]. destruct pre as [|c' pre].
      * left. exists post. exact H.
      * right. exists pre, post. now inversion H.
Qed.

Lemma keepLowerAZ_allLowerAZ (s : string) : allLowerAZ (keepLowerAZ s) = true.
Proof.
  induction s as [|c r IH]; simpl; [reflexivity|].
  destruct (isLowerAZ c) eqn:E; simpl; [rewrite E|]; exact IH.
Qed.

(** ** Selections *)

Lemma select_noElement (t : string) (d : document) :
  noElement t d -> select t d = [].
Proof.
  unfold noElement, select. induction (elements d) as [|n l IH]; intros H.
  - reflexivity.
  - simpl. unfold hasTag at 1.
    destruct (String.eqb_spec (tagName n) t) as [E|E].
    + exfalso. apply (H n); [now left | exact E].
    + apply IH. intros m Hm. apply H. now right.
Qed.

Lemma noElement_page_nil (t : string) :
  t <> "html" -> t <> "head" -> t <> "body" -> noElement t (page []).
Proof.
  intros H1 H2 H3 n Hn. simpl in Hn.
  destruct Hn as [<-|[<-|[<-|[]]]]; simpl; congruence.
Qed.

(** ** analyzeSEO *)

Lemma checkRobotsTxt_normal (w : World) (url : string) :
  throws (checkRobotsTxt w url) = false.
Proof.
  unfold checkRobotsTxt, Exn.try_catch, Exn.bind.
  destruct (new_URL w url); [destruct (axios_get w _)|]; reflexivity.
Qed.






(** ** analyzeLinks *)

(** C2 on the code: a document without anchors gets the ratio
    ["NaN% internal"]; the division [0 / 0] is not guarded. *)
Theorem analyzeLinks_without_anchors
        (w : World) (d : document) (baseUrl : string) (u : URL) :
  noElement "a" d ->
  new_URL w baseUrl = Normal u ->
  analyzeLinks w d baseUrl
  = Normal {| link_total := 0; internal := 0; external := 0;
              ratio := "NaN% internal" |}.
Proof.
  intros Hd Hu. unfold analyzeLinks.
  rewrite (select_noElement "a" d Hd), Hu. reflexivity.
Qed.

Lemma analyzeLinks_without_anchors_example :
  analyzeLinks (serving "https://example.com/") (page [])
               "https://example.com/"
  = Normal {| link_total := 0; internal := 0; external := 0;
              ratio := "NaN% internal" |}.
Proof.
  apply (analyzeLinks_without_anchors (serving "https://example.com/")
           (page []) "https://example.com/"
           (mkURL "example.com" "https://example.com")).
  - apply noElement_page_nil; discriminate.
  - reflexivity.
Defined.

(** ** analyzeImages *)

(** C7: a document without [img] elements has [missingAltPercentage] 0:
    [Math.round(0 / 0 * 100)] is NaN, and [NaN || 0] is 0. *)
Theorem analyzeImages_without_images (d : document) :
  noElement "img" d ->
  analyzeImages d
  = {| image_total := 0; missingAlt := 0;
       missingAltPercentage := Finite 0; image_examples := [] |}.
Proof.
  intros Hd. unfold analyzeImages.
  rewrite (select_noElement "img" d Hd). reflexivity.
Qed.

Lemma analyzeImages_without_images_example :
  missingAltPercentage (analyzeImages (page [])) = Finite 0.
Proof.
  rewrite (analyzeImages_without_images (page [])).
  - reflexivity.
  - apply noElement_page_nil; discriminate.
Defined.

Lemma imageOf_empty_alt (el : node) :
  attr "alt" el = Some "" \/ attr "alt" el = None ->
  imageOf el = {| src := opt_or (attr "src" el) ""; alt := "" |}.
Proof. unfold imageOf. intros [-> | ->]; reflexivity. Qed.

Lemma imageOf_sameButEmptyAlt (el el' : node) :
  sameButEmptyAlt el el' -> imageOf el = imageOf el'.
Proof.
  unfold sameButEmptyAlt, imageOf. intros [-> [-> | [-> ->]]]; reflexivity.
Qed.

Lemma map_imageOf_sameButEmptyAlt (l l' : list node) :
  Forall2 sameButEmptyAlt l l' -> map imageOf l = map imageOf l'.
Proof.
  induction 1 as [|el el' l l' H _ IH]; simpl; [reflexivity|].
  now rewrite (imageOf_sameButEmptyAlt el el' H), IH.
Qed.

(** C10: an [img] whose [alt] is the empty string is one more in
    [missingAlt] and stands in the list the examples are cut from, and a
    document in which such images have no [alt] at all gets the same
    summary. *)
Theorem analyzeImages_empty_alt (d : document) (before after : list node)
        (el : node) :
  select "img" d = (before ++ el :: after)%list ->
  attr "alt" el = Some "" ->
  missingAlt (analyzeImages d)
  = List.length (filter noAlt (map imageOf before)) + 1
    + List.length (filter noAlt (map imageOf after))
  /\ (exists rest,
        image_examples (analyzeImages d)
        = slice0 2 (filter noAlt (map imageOf before)
                    ++ {| src := opt_or (attr "src" el) ""; alt := "" |}
                    :: rest)%list)
  /\ (forall d', Forall2 sameButEmptyAlt (select "img" d) (select "img" d') ->
                 analyzeImages d = analyzeImages d').
Proof.
  intros Hsel Halt. unfold analyzeImages. repeat split.
  - simpl. rewrite Hsel, map_app, filter_app, length_app. simpl.
    rewrite (imageOf_empty_alt el (or_introl Halt)). simpl. lia.
  - exists (filter noAlt (map imageOf after)). simpl.
    rewrite Hsel, map_app, filter_app. simpl.
    rewrite (imageOf_empty_alt el (or_introl Halt)). reflexivity.
  - intros d' H. now rewrite (map_imageOf_sameButEmptyAlt _ _ H).
Qed.

Lemma analyzeImages_empty_alt_example :
  missingAlt (analyzeImages
                (page [Element "img" [("src", "a.png"); ("alt", "")] []]))
  = 1.
Proof.
  apply (proj1 (analyzeImages_empty_alt
                  (page [Element "img" [("src", "a.png"); ("alt", "")] []])
                  [] [] (Element "img" [("src", "a.png"); ("alt", "")] [])
                  eq_refl eq_refl)).
Defined.

(** ** checkWWWCanonicalization *)

(** C9, as the code has it: [hasWWW] says whether the address as a
    whole, the string given to the function, contains ["www."]. *)
Theorem checkWWWCanonicalization_hasWWW (url : string) :
  hasWWW (checkWWWCanonicalization url) = true
  <-> exists pre post, url = pre ++ "www." ++ post.
Proof. unfold checkWWWCanonicalization. simpl. apply includes_iff. Qed.

(** C9 as stated fails: [www.] in the path, not in the host name. *)
Lemma checkWWWCanonicalization_path :
  basicURL "https://example.com/www.html"
  = Normal (mkURL "example.com" "https://example.com")
  /\ includes "example.com" "www." = false
  /\ hasWWW (checkWWWCanonicalization "https://example.com/www.html") = true.
Proof. repeat split. Qed.

(** ** getCommonKeywords: the table of counts *)

Lemma getOwn_set (o : object) (k : string) (v : value) (k' : string) :
  getOwn (JS.set o k v) k' = if String.eqb k k' then Some v else getOwn o k'.
Proof.
  induction o as [|[k0 v0] o IH]; simpl.
  - reflexivity.
  - destruct (String.eqb_spec k0 k) as [->|Hk]; simpl.
    + destruct (String.eqb k k'); reflexivity.
    + rewrite IH. destruct (String.eqb_spec k0 k') as [->|Hk'].
      * destruct (String.eqb_spec k k'); [congruence | reflexivity].
      * reflexivity.
Qed.

Lemma In_keys_set (o : object) (k : string) (v : value) (x : string) :
  In x (map fst (JS.set o k v)) <-> x = k \/ In x (map fst o).
Proof.
  induction o as [|[k0 v0] o IH]; simpl.
  - intuition.
  - destruct (String.eqb_spec k0 k) as [->|Hk]; simpl.
    + intuition.
    + rewrite IH. intuition.
Qed.

Lemma NoDup_keys_set (o : object) (k : string) (v : value) :
  NoDup (map fst o) -> NoDup (map fst (JS.set o k v)).
Proof.
  induction o as [|[k0 v0] o IH]; simpl; intros H.
  - constructor; [intros [] | constructor].
  - inversion H as [|? ? Hnot Hrest]; subst.
    destruct (String.eqb_spec k0 k) as [->|Hk]; simpl.
    + constructor; assumption.
    + constructor; [|auto].
      rewrite In_keys_set. intros [E|E]; [congruence | contradiction].
Qed.

Lemma In_getOwn (o : object) (k : string) (v : value) :
  NoDup (map fst o) -> In (k, v) o -> getOwn o k = Some v.
Proof.
  induction o as [|[k0 v0] o IH]; simpl; intros Hnd Hin; [contradiction|].
  inversion Hnd as [|? ? Hnot Hrest]; subst.
  destruct Hin as [E|Hin].
  - inversion E; subst. now rewrite String.eqb_refl.
  - destruct (String.eqb_spec k0 k) as [->|Hk].
    + exfalso. apply Hnot. apply (in_map fst) in Hin. exact Hin.
    + auto.
Qed.

Lemma NoDup_keys_fold (ws : list string) (o : object) :
  NoDup (map fst o) -> NoDup (map fst (fold_left countWord ws o)).
Proof.
  revert o; induction ws as [|w ws IH]; simpl; intros o H; [exact H|].
  apply IH. unfold countWord. now apply NoDup_keys_set.
Qed.

Lemma In_keys_fold (ws : list string) (o : object) (x : string) :
  In x (map fst (fold_left countWord ws o)) ->
  In x (map fst o) \/ In x (map keepLowerAZ ws).
Proof.
  revert o; induction ws as [|w ws IH]; simpl; intros o H; [now left|].
  apply IH in H. destruct H as [H|H]; [|now right; right].
  unfold countWord in H. apply In_keys_set in H.
  destruct H as [->|H]; [right; now left | now left].
Qed.

Lemma countWord_counted (seen : list string) (o : object) (w : string) :
  keepLowerAZ w <> "constructor" ->
  counted seen o -> counted (seen ++ [keepLowerAZ w]) (countWord o w).
Proof.
  intros Hw Ho k. unfold countWord. rewrite getOwn_set, count_occ_app.
  simpl. destruct (string_dec (keepLowerAZ w) k) as [<-|Hk].
  - rewrite String.eqb_refl. unfold JS.get. rewrite (Ho (keepLowerAZ w)).
    destruct (count_occ string_dec seen (keepLowerAZ w)) as [|n]; simpl.
    + unfold inherited.
      destruct (String.eqb_spec (keepLowerAZ w) "constructor");
        [contradiction | reflexivity].
    + rewrite !Nat.add_1_r. reflexivity.
  - destruct (String.eqb_spec (keepLowerAZ w) k); [contradiction|].
    rewrite Nat.add_0_r. apply Ho.
Qed.

Lemma fold_counted (rest seen : list string) (o : object) :
  ~ In "constructor" (map keepLowerAZ rest) ->
  counted seen o ->
  counted (seen ++ map keepLowerAZ rest) (fold_left countWord rest o).
Proof.
  revert seen o; induction rest as [|w rest IH]; simpl; intros seen o Hc Ho.
  - now rewrite app_nil_r.
  - replace (seen ++ keepLowerAZ w :: map keepLowerAZ rest)%list
      with ((seen ++ [keepLowerAZ w]) ++ map keepLowerAZ rest)%list
      by (now rewrite <- app_assoc).
    apply IH; [tauto|]. apply countWord_counted; [|exact Ho].
    intros E. apply Hc. now left.
Qed.

Lemma wordCount_counted (d : document) :
  ~ In "constructor" (cleanedWords d) ->
  counted (cleanedWords d) (wordCount d).
Proof.
  intros H. unfold wordCount, cleanedWords.
  apply (fold_counted (keywordWords d) [] [] H). intros k. reflexivity.
Qed.

Lemma wordCount_entry (d : document) (e : string * value) :
  ~ In "constructor" (cleanedWords d) ->
  In e (wordCount d) ->
  snd e = Num (frequency d (fst e)).
Proof.
  intros Hc He. destruct e as [k v]. simpl.
  assert (Hg : getOwn (wordCount d) k = Some v).
  { apply In_getOwn; [|exact He].
    unfold wordCount. apply NoDup_keys_fold. constructor. }
  rewrite (wordCount_counted d Hc k) in Hg. unfold frequency.
  destruct (count_occ string_dec (cleanedWords d) k); congruence.
Qed.

(** ** getCommonKeywords: the sort *)

Section SortFacts.
Context {A : Type} (cmp : A -> A -> option Z).

Lemma In_insert (x y : A) (l : list A) :
  In x (insert cmp y l) <-> x = y \/ In x l.
Proof.
  induction l as [|z l IH]; simpl.
  - intuition.
  - destruct (placeBefore cmp y z); simpl; [|rewrite IH]; intuition.
Qed.

Lemma In_sort (x : A) (l : list A) : In x (sort cmp l) <-> In x l.
Proof.
  induction l as [|z l IH]; simpl; [reflexivity|].
  rewrite In_insert, IH. intuition.
Qed.

Lemma length_insert (y : A) (l : list A) :
  List.length (insert cmp y l) = S (List.length l).
Proof.
  induction l as [|z l IH]; simpl; [reflexivity|].
  destruct (placeBefore cmp y z); simpl; [|rewrite IH]; reflexivity.
Qed.

Lemma length_sort (l : list A) : List.length (sort cmp l) = List.length l.
Proof.
  induction l as [|z l IH]; simpl; [reflexivity|].
  now rewrite length_insert, IH.
Qed.
End SortFacts.

Lemma In_slice0 {A : Type} (n : nat) (l : list A) (x : A) :
  In x (slice0 n l) -> In x l.
Proof.
  unfold slice0. revert l; induction n as [|n IH]; intros l H.
  - contradiction.
  - destruct l as [|y l]; [contradiction|].
    destruct H as [H|H]; [now left | right; now apply IH].
Qed.

Lemma nonIncreasing_cons (x : nat) (l : list nat) :
  nonIncreasing (x :: l) <->
  (forall y, hd_error l = Some y -> y <= x) /\ nonIncreasing l.
Proof.
  destruct l as [|y r]; simpl.
  - intuition. discriminate.
  - split.
    + intros [H1 H2]. split; [|exact H2]. intros z E. now inversion E; subst.
    + intros [H1 H2]. split; [now apply H1 | exact H2].
Qed.

Lemma placeBefore_byCount (a b : string * value) :
  isNum a -> isNum b ->
  placeBefore byCount a b = (storedCount b <=? storedCount a).
Proof.
  intros [na Ha] [nb Hb]. unfold placeBefore, byCount, minus, storedCount.
  rewrite Ha, Hb. simpl.
  destruct (Nat.leb_spec nb na); [apply Z.leb_le | apply Z.leb_gt]; lia.
Qed.

Lemma insert_nonIncreasing (x : string * value) (l : list (string * value)) :
  isNum x -> Forall isNum l ->
  nonIncreasing (map storedCount l) ->
  nonIncreasing (map storedCount (insert byCount x l)).
Proof.
  intros Hx Hl. induction Hl as [|y r Hy Hr IH]; intros Hs.
  - simpl. auto.
  - simpl. rewrite (placeBefore_byCount x y Hx Hy).
    destruct (Nat.leb_spec (storedCount y) (storedCount x)) as [Hle|Hlt].
    + change (nonIncreasing (storedCount x :: map storedCount (y :: r))).
      apply nonIncreasing_cons. split; [|exact Hs].
      intros z E. simpl in E. inversion E; subst. exact Hle.
    + change (nonIncreasing
                (storedCount y :: map storedCount (insert byCount x r))).
      change (nonIncreasing (storedCount y :: map storedCount r)) in Hs.
      apply nonIncreasing_cons in Hs. destruct Hs as [Hhd Hs].
      apply nonIncreasing_cons. split; [|now apply IH].
      intros z E. destruct r as [|y' r'].
      * simpl in E. inversion E; subst. lia.
      * simpl in E. inversion Hr as [|? ? Hy' _]; subst.
        rewrite (placeBefore_byCount x y' Hx Hy') in E.
        destruct (storedCount y' <=? storedCount x); simpl in E;
          inversion E; subst; [lia | now apply Hhd].
Qed.

Lemma sort_nonIncreasing (l : list (string * value)) :
  Forall isNum l -> nonIncreasing (map storedCount (sort byCount l)).
Proof.
  induction 1 as [|x l Hx Hl IH]; simpl; [exact I|].
  apply insert_nonIncreasing; [exact Hx | | exact IH].
  apply Forall_forall. intros e He. apply In_sort in He.
  rewrite Forall_forall in Hl. now apply Hl.
Qed.

Lemma firstn_nonIncreasing (n : nat) (l : list nat) :
  nonIncreasing l -> nonIncreasing (firstn n l).
Proof.
  revert l; induction n as [|n IH]; intros l H; [exact I|].
  destruct l as [|x l]; [exact I|].
  change (firstn (S n) (x :: l)) with (x :: firstn n l).
  apply nonIncreasing_cons in H. destruct H as [Hhd H].
  apply nonIncreasing_cons. split; [|now apply IH].
  intros y E. apply Hhd. destruct n, l; simpl in *; congruence.
Qed.

(** ** getCommonKeywords: what holds of every document *)

(** At most ten keywords. *)
Lemma topKeywordList_length (d : document) :
  List.length (topKeywordList d) <= 10.
Proof.
  unfold topKeywordList, slice0. rewrite length_map. apply firstn_le_length.
Qed.

(** Every keyword is made of the letters a-z and is what the cleaning
    leaves of a word that had more than 3 code units before it. *)
Lemma topKeywordList_cleaned (d : document) (token : string) :
  In token (topKeywordList d) ->
  allLowerAZ token = true
  /\ exists word, In word (keywordWords d)
                  /\ 3 < String.length word
                  /\ token = keepLowerAZ word.
Proof.
  unfold topKeywordList. intros H.
  apply in_map_iff in H. destruct H as [e [<- He]].
  apply In_slice0, In_sort in He.
  apply (in_map fst) in He. apply In_keys_fold in He.
  destruct He as [[]|He].
  apply in_map_iff in He. destruct He as [word [<- Hw]].
  split; [apply keepLowerAZ_allLowerAZ|].
  exists word. repeat split; [exact Hw|].
  unfold keywordWords in Hw. apply filter_In in Hw.
  destruct Hw as [_ Hw]. now apply Nat.ltb_lt.
Qed.

(** As long as no word of the page cleans to [constructor], the
    keywords stand in the order of their frequencies, highest first. *)
Lemma topKeywordList_sorted (d : document) :
  ~ In "constructor" (cleanedWords d) ->
  nonIncreasing (map (frequency d) (topKeywordList d)).
Proof.
  intros Hc. unfold topKeywordList, slice0. rewrite map_map.
  assert (Hn : Forall isNum (wordCount d)).
  { apply Forall_forall. intros e He. exists (frequency d (fst e)).
    now apply wordCount_entry. }
  assert (E : map (fun e => frequency d (fst e))
                  (firstn 10 (sort byCount (wordCount d)))
              = map storedCount (firstn 10 (sort byCount (wordCount d)))).
  { apply map_ext_in. intros e He.
    apply (In_slice0 10), In_sort in He.
    unfold storedCount. now rewrite (wordCount_entry d e Hc He). }
  rewrite E, <- firstn_map.
  apply firstn_nonIncreasing, sort_nonIncreasing, Hn.
Qed.

(** A page whose words longer than 3 code units are five times
    [testing] has the one keyword [testing]. *)
Lemma getCommonKeywords_testing (d : document) :
  keywordWords d = repeat "testing" 5 ->
  topKeywordList d = ["testing"]
  /\ keywords (getCommonKeywords d) = "testing".
Proof.
  intros H. unfold getCommonKeywords, topKeywordList, wordCount.
  rewrite H. split; reflexivity.
Qed.

(** ** getCommonKeywords: where it goes wrong *)

(** C3 on the code: the length test comes before the cleaning, so the
    word [it's] is kept and becomes the keyword [its], and [2024]
    becomes the empty keyword. *)
Theorem getCommonKeywords_short_tokens :
  keywordWords (page [paragraph "it's 2024"]) = ["it's"; "2024"]
  /\ topKeywordList (page [paragraph "it's 2024"]) = ["its"; ""]
  /\ keywords (getCommonKeywords (page [paragraph "it's 2024"])) = "its "
  /\ properKeyword "its" = false
  /\ properKeyword "" = false.
Proof. repeat split. Qed.

(** C8 on the code: the count of the word [constructor] starts from the
    function that every object inherits under that name, so it is a
    string, the comparator yields NaN and the word keeps its place
    before a word that occurs more often. *)
Theorem getCommonKeywords_constructor :
  let d := page [paragraph "constructor testing testing"] in
  wordCount d
  = [("constructor", Str "function Object() { [native code] }1");
     ("testing", Num 2)]
  /\ byCount ("constructor", Str "function Object() { [native code] }1")
             ("testing", Num 2) = None
  /\ topKeywordList d = ["constructor"; "testing"]
  /\ keywords (getCommonKeywords d) = "constructor testing"
  /\ map (frequency d) (topKeywordList d) = [1; 2]
  /\ ~ nonIncreasing (map (frequency d) (topKeywordList d)).
Proof.
  repeat split. vm_compute. intros [H _]. inversion H as [|? H1]. inversion H1.
Qed.
End SeoProofs.

(* ================================================================== *)
(** * Properties of the security tab *)
(* ================================================================== *)

Module SecurityProofs.
Import JS Exn Eff Security SecuritySpec.
Local Open Scope eff_scope.
Local Open Scope list_scope.

Lemma Done_inj {A : Type} (a b : A) : Done a = Done b -> a = b.
Proof. intros H. now inversion H. Qed.

(** ** The polling loop *)




Lemma pollRounds_snoc (hostname : string) (log : list Event) (k : nat) :
  ((log ++ [Waited interval]) ++ [Fetched (pollRequest hostname)])
    ++ pollRounds hostname k
  = log ++ pollRounds hostname (S k).
Proof. now rewrite <- !app_assoc. Qed.


(** One turn was taken and ended the loop with [c]. *)
Ltac one_turn c attempts Hone :=
  exists 1, c, attempts; unfold ret, throw; rewrite Hone;
  repeat split; try lia; try discriminate.

(** What the loop does from [attempts] and [log], given fuel for the
    turns that are left: it takes [k] turns, no more than are left; the
    counter goes up by at most [k] and not past [maxAttempts]; the fuel
    does not run out; data are returned only with the status READY; and
    when the counter has reached [maxAttempts], all turns were taken and
    the loop ends with the timeout. *)
Lemma pollLoop_spec (net : Network) (hostname : string) (fuel : nat) :
  forall (attempts : nat) (log : list Event),
  maxAttempts - attempts <= fuel ->
  exists (k : nat) (c : outcome SslData) (attempts' : nat),
    pollLoop net hostname fuel (attempts, log)
    = (c, (attempts', log ++ pollRounds hostname k))
    /\ k <= maxAttempts - attempts
    /\ attempts <= attempts'
    /\ attempts' - attempts <= k
    /\ (attempts <= maxAttempts -> attempts' <= maxAttempts)
    /\ c <> OutOfFuel
    /\ (forall data, c = Done data -> statusIs data "READY" = true)
    /\ (maxAttempts <= attempts' ->
        c = Thrown timeout /\ k = maxAttempts - attempts).
Proof.
  induction fuel as [|fuel IH]; intros attempts log Hfuel;
    cbn [pollLoop]; unfold bind at 1, read at 1; cbn [fst snd];
    destruct (Nat.ltb_spec attempts maxAttempts) as [Hlt|Hge];
    try (exists 0, (Thrown timeout), attempts;
         cbn [pollRounds]; unfold throw; rewrite app_nil_r;
         repeat split; try lia; discriminate).
  unfold bind at 1, wait, emit. cbn [fst snd].
  unfold bind at 1, fetch at 1. cbn [fst snd].
  fold (pollRequest hostname).
  set (log' := (log ++ [Waited interval])
                 ++ [Fetched (pollRequest hostname)]).
  assert (Hone : log' = log ++ pollRounds hostname 1)
    by (unfold log'; now rewrite <- app_assoc).
  assert (Hmore : forall k, log' ++ pollRounds hostname k
                            = log ++ pollRounds hostname (S k))
    by (intros k; apply pollRounds_snoc).
  destruct (net (log ++ [Waited interval]) (pollRequest hostname))
    as [pollResponse|e]; cbn [settle];
    [|one_turn (@Thrown SslData e) attempts Hone].
  destruct (ok pollResponse); cbn [negb];
    [|one_turn (@Thrown SslData (Error "SSL Labs polling error"))
               attempts Hone].
  unfold bind at 1, await at 1.
  destruct (json pollResponse) as [data|e]; cbn [settle];
    [|one_turn (@Thrown SslData e) attempts Hone].
  destruct (statusIs data "READY") eqn:Hready.
  { one_turn (Done data) attempts Hone.
    intros ? E. now inversion E; subst. }
  destruct (statusIs data "ERROR");
    [one_turn (@Thrown SslData (Error "SSL Labs analysis failed"))
              attempts Hone|].
  unfold bind at 1, update at 1. cbn [fst snd].
  destruct (IH (attempts + 1) log')
    as [k [c [attempts' [Hrun [Hk [Ha [Hd [Hm [Hf [Hr Hx]]]]]]]]]];
    [lia|].
  exists (S k), c, attempts'. rewrite Hrun, Hmore.
  split; [reflexivity|]. split; [lia|]. split; [lia|].
  split; [lia|]. split; [lia|]. split; [exact Hf|]. split; [exact Hr|].
  intros E. destruct (Hx E) as [Hx1 Hx2]. split; [exact Hx1 | lia].
Qed.

(** [checkSSL] when the start request fails, with the error that is
    caught. *)
Lemma checkSSL_start_failure (net : Network) (hostname : string)
      (err : error) :
  net [] (startRequest hostname) = Throw err
  \/ (exists r, net [] (startRequest hostname) = Normal r
                /\ ok r = false /\ err = Error "SSL Labs API error") ->
  runSSL net hostname
  = (Done None,
     (0, [Fetched (startRequest hostname);
          Logged "SSL check failed:" err])).
Proof.
  intros Hc. unfold runSSL, run, checkSSL, try_catch.
  unfold bind at 1, fetch at 1. cbn [fst snd].
  fold (startRequest hostname).
  destruct Hc as [E | [r [E [Hok ->]]]]; rewrite E; cbn [settle];
    [|rewrite Hok]; reflexivity.
Qed.

(** [checkSSL] when the start request succeeds: what the loop gave,
    with a [null] and a log entry for a throw. *)
Lemma checkSSL_polling (net : Network) (hostname : string) (r : Response) :
  net [] (startRequest hostname) = Normal r ->
  ok r = true ->
  runSSL net hostname
  = match pollLoop net hostname maxAttempts
            (0, [Fetched (startRequest hostname)]) with
    | (Done data, s) => (Done (Some data), s)
    | (Thrown err, s) =>
        (Done None, (fst s, snd s ++ [Logged "SSL check failed:" err]))
    | (OutOfFuel, s) => (OutOfFuel, s)
    end.
Proof.
  intros E Hok. unfold runSSL, run, checkSSL, try_catch.
  unfold bind at 1, fetch at 1. cbn [fst snd].
  fold (startRequest hostname). rewrite E. cbn [settle]. rewrite Hok.
  cbn [negb]. unfold bind at 1, update at 1. cbn [fst snd app].
  unfold bind at 1.
  destruct (pollLoop net hostname maxAttempts
              (0, [Fetched (startRequest hostname)])) as [[data|err|] s];
    reflexivity.
Qed.


(** A service that never gets past IN_PROGRESS: 30 turns, five minutes
    of waiting, then [null]. *)
Lemma checkSSL_timeout_example :
  runSSL neverReady "example.com"
  = (Done None,
     (maxAttempts,
      Fetched (startRequest "example.com")
      :: pollRounds "example.com" maxAttempts ++ closing None timeout))
  /\ waited (events (runSSL neverReady "example.com")) = 300000%N.
Proof. vm_compute. split; reflexivity. Qed.

(** ** The header check and the three scans *)

Lemma checkHeaders_run (net : Network) (hostname : string)
      (v : Vulnerabilities) :
  checkHeaders net ("https://" ++ hostname)%string (mkLocals noHeaders v, [])
  = (Done tt,
     (mkLocals (headerScan net hostname) v, headerEvents net hostname)).
Proof.
  unfold checkHeaders, try_catch, bind, fetch, headerScan, headerEvents,
    headRequest.
  cbn [fst snd app].
  destruct (net [] (mkRequest ("https://" ++ hostname)%string HEAD follow));
    reflexivity.
Qed.

Lemma forOf_probeAdmin (net : Network) (hostname : string)
      (paths : list string) :
  forall h a di sf log,
    forOf paths (probeAdmin net ("https://" ++ hostname)%string)
          (mkLocals h (mkVulnerabilities a di sf), log)
    = (Done tt,
       (mkLocals h (mkVulnerabilities
                      (a ++ adminScan net hostname log paths) di sf),
        log ++ adminEvents hostname paths)).
Proof.
  induction paths as [|path paths IH]; intros h a di sf log.
  - cbn. unfold ret. now rewrite !app_nil_r.
  - cbn [forOf adminScan adminEvents map]. unfold bind at 1.
    unfold probeAdmin at 1, try_catch, bind at 1, fetch at 1, adminRequest.
    cbn [fst snd].
    destruct (net log (mkRequest (("https://" ++ hostname) ++ path)%string
                                 HEAD manual)) as [resp|e]; cbn [settle].
    + destruct (negb (status resp =? 404) && negb (status resp =? 0));
        unfold update, ret, pushAdminUrl; cbn -[adminScan adminEvents];
        rewrite IH; unfold adminEvents, adminRequest;
        now rewrite <- ?app_assoc.
    + unfold ret. rewrite IH. unfold adminEvents, adminRequest.
      now rewrite <- ?app_assoc.
Qed.

Lemma checkDirectoryIndexing_run (net : Network) (hostname : string) :
  forall h a sf log,
    checkDirectoryIndexing net ("https://" ++ hostname)%string
          (mkLocals h (mkVulnerabilities a false sf), log)
    = (Done tt,
       (mkLocals h (mkVulnerabilities a (dirScan net hostname log) sf),
        log ++ [Fetched (dirRequest hostname)])).
Proof.
  intros h a sf log.
  unfold checkDirectoryIndexing, try_catch, bind at 1, fetch at 1, dirScan,
    dirRequest.
  cbn [fst snd].
  destruct (net log (mkRequest (("https://" ++ hostname) ++ "/")%string
                               GET follow)) as [resp|e]; cbn [settle];
    [|reflexivity].
  unfold bind, await.
  destruct (text resp) as [dirText|e]; cbn [settle]; [|reflexivity].
  destruct (includes dirText "Index of /"
            || includes dirText "Directory Listing"
            || includes dirText "<title>Index of"); reflexivity.
Qed.

Lemma forOf_probeFile (net : Network) (hostname : string)
      (paths : list string) :
  forall h a di sf log,
    forOf paths (probeFile net ("https://" ++ hostname)%string)
          (mkLocals h (mkVulnerabilities a di sf), log)
    = (Done tt,
       (mkLocals h (mkVulnerabilities
                      a di (sf ++ fileScan net hostname log paths)),
        log ++ fileEvents hostname paths)).
Proof.
  induction paths as [|path paths IH]; intros h a di sf log.
  - cbn. unfold ret. now rewrite !app_nil_r.
  - cbn [forOf fileScan fileEvents map]. unfold bind at 1.
    unfold probeFile at 1, try_catch, bind at 1, fetch at 1, fileRequest.
    cbn [fst snd].
    destruct (net log (mkRequest (("https://" ++ hostname) ++ path)%string
                                 HEAD follow)) as [resp|e]; cbn [settle].
    + destruct (status resp =? 200);
        unfold update, ret, pushSensitiveFile; cbn -[fileScan fileEvents];
        rewrite IH; unfold fileEvents, fileRequest;
        now rewrite <- ?app_assoc.
    + unfold ret. rewrite IH. unfold fileEvents, fileRequest.
      now rewrite <- ?app_assoc.
Qed.

(** The function as a whole: it returns, its two objects hold what the
    header check and the three scans give, and the 22 requests go out
    in their order whatever the answers are. *)
Lemma checkSecurityHeaders_run (net : Network) (hostname : string) :
  let log0 := headerEvents net hostname in
  let log1 := log0 ++ adminEvents hostname adminPaths in
  let log2 := log1 ++ [Fetched (dirRequest hostname)] in
  let hs := headerScan net hostname in
  let v := {| adminUrls := adminScan net hostname log0 adminPaths;
              directoryIndexing := dirScan net hostname log1;
              sensitiveFiles :=
                fileScan net hostname log2 sensitiveFilePaths |} in
  runSecurityHeaders net hostname
  = (Done (hs, v),
     (mkLocals hs v, log2 ++ fileEvents hostname sensitiveFilePaths)).
Proof.
  intros log0 log1 log2 hs v.
  unfold runSecurityHeaders, run, checkSecurityHeaders.
  unfold bind at 1, update at 1. cbn [fst snd].
  unfold bind at 1. rewrite checkHeaders_run. unfold noVulns.
  unfold bind at 1. rewrite forOf_probeAdmin. cbn [app].
  unfold bind at 1. rewrite checkDirectoryIndexing_run.
  unfold bind at 1. rewrite forOf_probeFile. cbn [app].
  reflexivity.
Qed.

(** C5: when the header request fails, the five header fields are
    [null], the function still returns, and the 9 admin probes, the
    directory check and the 11 file probes go out after the failure and
    fill in the vulnerabilities. *)
Theorem checkSecurityHeaders_header_failure
        (net : Network) (hostname : string) (e : error) :
  net [] (headRequest hostname) = Throw e ->
  let log0 := [Fetched (headRequest hostname);
               Logged "Header check failed:" e] in
  let log1 := log0 ++ adminEvents hostname adminPaths in
  let log2 := log1 ++ [Fetched (dirRequest hostname)] in
  result (runSecurityHeaders net hostname)
  = Done ({| strictTransportSecurity := None;
             xFrameOptions := None;
             xXssProtection := None;
             contentSecurityPolicy := None;
             xContentTypeOptions := None |},
          {| adminUrls := adminScan net hostname log0 adminPaths;
             directoryIndexing := dirScan net hostname log1;
             sensitiveFiles :=
               fileScan net hostname log2 sensitiveFilePaths |})
  /\ events (runSecurityHeaders net hostname)
     = log2 ++ fileEvents hostname sensitiveFilePaths
  /\ List.length (adminEvents hostname adminPaths) = 9
  /\ List.length (fileEvents hostname sensitiveFilePaths) = 11.
Proof.
  intros H log0 log1 log2. rewrite checkSecurityHeaders_run.
  unfold result, events, headerScan, headerEvents. cbn [fst snd].
  rewrite H. repeat split.
Qed.

Lemma checkSecurityHeaders_header_failure_example :
  result (runSecurityHeaders unreachableRoot "h")
  = Done (noHeaders,
          {| adminUrls := [mkAdminUrlVuln "/admin" 301 true;
                           mkAdminUrlVuln "/cpanel" 500 false];
             directoryIndexing := false;
             sensitiveFiles := [mkSensitiveFileVuln "/.env" true 200] |}).
Proof.
  exact (proj1 (checkSecurityHeaders_header_failure
                  unreachableRoot "h" failedToFetch eq_refl)).
Defined.

(** ** What the scans record *)

Section Scans.
Variable net : Network.
Variable hostname : string.

Lemma adminScan_recorded (paths : list string) :
  forall log,
    Forall (fun a => admin_status a <> 404 /\ admin_status a <> 0
                     /\ admin_accessible a = (admin_status a <? 400))
           (adminScan net hostname log paths).
Proof.
  induction paths as [|path paths IH]; intros log; cbn [adminScan].
  - constructor.
  - apply Forall_app. split; [|apply IH].
    destruct (net log (adminRequest hostname path)) as [resp|e];
      [|constructor].
    destruct (Nat.eqb_spec (status resp) 404) as [E1|E1]; [constructor|].
    destruct (Nat.eqb_spec (status resp) 0) as [E2|E2]; [constructor|].
    cbn. constructor; [|constructor]. cbn. auto.
Qed.

Lemma adminScan_order (paths : list string) :
  forall log,
    Subseq (map admin_url (adminScan net hostname log paths)) paths.
Proof.
  induction paths as [|path paths IH]; intros log; cbn [adminScan].
  - constructor.
  - rewrite map_app.
    destruct (net log (adminRequest hostname path)) as [resp|e];
      [|apply Subseq_skip, IH].
    destruct (negb (status resp =? 404) && negb (status resp =? 0)).
    + apply Subseq_keep, IH.
    + apply Subseq_skip, IH.
Qed.

Lemma fileScan_recorded (paths : list string) :
  forall log,
    Forall (fun f => file_status f = 200 /\ file_accessible f = true)
           (fileScan net hostname log paths).
Proof.
  induction paths as [|path paths IH]; intros log; cbn [fileScan].
  - constructor.
  - apply Forall_app. split; [|apply IH].
    destruct (net log (fileRequest hostname path)) as [resp|e];
      [|constructor].
    destruct (Nat.eqb_spec (status resp) 200) as [E|E]; [|constructor].
    constructor; [|constructor]. cbn. auto.
Qed.

Lemma fileScan_order (paths : list string) :
  forall log,
    Subseq (map file (fileScan net hostname log paths)) paths.
Proof.
  induction paths as [|path paths IH]; intros log; cbn [fileScan].
  - constructor.
  - rewrite map_app.
    destruct (net log (fileRequest hostname path)) as [resp|e];
      [|apply Subseq_skip, IH].
    destruct (status resp =? 200).
    + apply Subseq_keep, IH.
    + apply Subseq_skip, IH.
Qed.

End Scans.

(** C6: every entry of [adminUrls] has a status other than 404 and 0,
    with [accessible] saying whether the status is below 400; every
    entry of [sensitiveFiles] has status 200; and both lists name their
    paths in the order of the probe lists. *)
Theorem checkSecurityHeaders_findings
        (net : Network) (hostname : string)
        (hs : SecurityHeaders) (v : Vulnerabilities) :
  result (runSecurityHeaders net hostname) = Done (hs, v) ->
  Forall (fun a => admin_status a <> 404 /\ admin_status a <> 0
                   /\ admin_accessible a = (admin_status a <? 400))
         (adminUrls v)
  /\ Forall (fun f => file_status f = 200 /\ file_accessible f = true)
            (sensitiveFiles v)
  /\ Subseq (map admin_url (adminUrls v)) adminPaths
  /\ Subseq (map file (sensitiveFiles v)) sensitiveFilePaths.
Proof.
  rewrite checkSecurityHeaders_run. unfold result. cbn [fst].
  intros H. apply Done_inj, pair_equal_spec in H. destruct H as [_ <-].
  cbn [adminUrls sensitiveFiles].
  repeat split.
  - apply adminScan_recorded.
  - apply fileScan_recorded.
  - apply adminScan_order.
  - apply fileScan_order.
Qed.

Lemma checkSecurityHeaders_findings_example :
  Forall (fun a => admin_status a <> 404 /\ admin_status a <> 0
                   /\ admin_accessible a = (admin_status a <? 400))
         [mkAdminUrlVuln "/admin" 301 true;
          mkAdminUrlVuln "/cpanel" 500 false]
  /\ Forall (fun f => file_status f = 200 /\ file_accessible f = true)
            [mkSensitiveFileVuln "/.env" true 200]
  /\ Subseq ["/admin"; "/cpanel"] adminPaths
  /\ Subseq ["/.env"] sensitiveFilePaths.
Proof.
  exact (checkSecurityHeaders_findings
           unreachableRoot "h" noHeaders
           {| adminUrls := [mkAdminUrlVuln "/admin" 301 true;
                            mkAdminUrlVuln "/cpanel" 500 false];
              directoryIndexing := false;
              sensitiveFiles := [mkSensitiveFileVuln "/.env" true 200] |}
           eq_refl).
Defined.

End SecurityProofs.

(* ================================================================== *)
(** * More properties of the SEO analyser *)
(* ================================================================== *)

Module SeoExtras.
Import JS Dom Exn Seo SeoSpec MoreSpec.
Local Open Scope exn_scope.

(** ** Strings *)

Lemma length_append (s t : string) :
  String.length (s ++ t) = String.length s + String.length t.
Proof. induction s as [|c s IH]; simpl; [reflexivity | now rewrite IH]. Qed.

Lemma length_substring0 (n : nat) (s : string) :
  String.length (String.substring 0 n s) = Nat.min n (String.length s).
Proof.
  revert s; induction n as [|n IH]; intros s.
  - destruct s; reflexivity.
  - destruct s as [|c s]; simpl; [reflexivity | now rewrite IH].
Qed.

Lemma str_or_nonempty (s d : string) : d <> "" -> str_or s d <> "".
Proof. destruct s; simpl; [auto | discriminate]. Qed.

Lemma opt_or_nonempty (v : option string) (d : string) :
  d <> "" -> opt_or v d <> "".
Proof. destruct v; simpl; [apply str_or_nonempty | auto]. Qed.





(** ** getHeadings *)


(** ** getMetaDescription, getTitleData, generateSearchPreview *)

(** Either the first description tag has a non-empty content, which is
    reported with its length, or (no tag, no [content], empty
    [content]) the length is 0 and the content is the placeholder. *)
Theorem getMetaDescription_cases (d : document) :
  let md := getMetaDescription d in
  (meta_found md = true
   /\ firstAttr "content" (selectAttrEq "meta" "name" "description" d)
      = Some (meta_content md)
   /\ meta_length md = String.length (meta_content md)
   /\ 0 < meta_length md)
  \/ (meta_found md = false
      /\ meta_length md = 0
      /\ meta_content md = "No meta description found"
      /\ opt_or (firstAttr "content"
                   (selectAttrEq "meta" "name" "description" d)) "" = "").
Proof.
  unfold getMetaDescription. cbn zeta.
  destruct (firstAttr "content" (selectAttrEq "meta" "name" "description" d))
    as [[|c s]|]; cbn.
  - right. repeat split.
  - left. repeat split. lia.
  - right. repeat split.
Qed.

(** The title is the text of all [title] elements together; when that
    is empty the length is 0 and the content is the placeholder,
    otherwise the content is that text and the length is its length. *)
Theorem getTitleData_cases (d : document) :
  let t := getTitleData d in
  (text (select "title" d) = ""
   /\ title_length t = 0 /\ title_content t = "No title found")
  \/ (title_content t = text (select "title" d)
      /\ title_length t = String.length (title_content t)
      /\ 0 < title_length t).
Proof.
  unfold getTitleData. cbn zeta.
  destruct (text (select "title" d)) as [|c s]; cbn.
  - left. repeat split.
  - right. repeat split. lia.
Qed.

(** The preview text is the title, [" - "], at most the first 100 code
    units of the description and ["..."] (also when nothing was cut);
    neither the title nor the description of the preview is empty; and
    they are the title and the meta description of the report whenever
    the page has them. *)
Theorem generateSearchPreview_shape (d : document) (url : string) :
  let p := generateSearchPreview d url in
  String.length (previewText p)
  = String.length (preview_title p) + 3
    + Nat.min 100 (String.length (preview_description p)) + 3
  /\ preview_title p <> ""
  /\ preview_description p <> ""
  /\ (0 < title_length (getTitleData d) ->
      preview_title p = title_content (getTitleData d))
  /\ (meta_found (getMetaDescription d) = true ->
      preview_description p = meta_content (getMetaDescription d)).
Proof.
  unfold generateSearchPreview. cbn zeta.
  cbn [previewText preview_title preview_description].
  split.
  { rewrite !length_append, length_substring0. cbn [String.length]. lia. }
  split; [apply str_or_nonempty; discriminate|].
  split; [apply opt_or_nonempty; discriminate|].
  unfold getTitleData, getMetaDescription. cbn zeta. split.
  - destruct (text (select "title" d)); cbn; [lia | reflexivity].
  - destruct (firstAttr "content"
                (selectAttrEq "meta" "name" "description" d))
      as [[|c s]|]; cbn; try discriminate; reflexivity.
Qed.

(** ** Percentages *)

Lemma isZero_ofNat (n : nat) : isZero (Z.of_nat n # 1) = (n =? 0).
Proof.
  unfold isZero, Qcompare. cbn [Qnum Qden].
  destruct n as [|n]; [reflexivity|].
  rewrite Z.mul_1_r. cbn. reflexivity.
Qed.



Lemma scaled_all (n : nat) : 0 < n -> scaled n n = Finite 100.
Proof.
  intros Hn. unfold scaled, div, mul, ofNat.
  rewrite isZero_ofNat. destruct (Nat.eqb_spec n 0); [lia|].
  rewrite (Qred_complete ((Z.of_nat n # 1) / (Z.of_nat n # 1)) 1).
  - reflexivity.
  - apply Qmult_inv_r. unfold Qeq; cbn; lia.
Qed.

Lemma scaled_none (n : nat) : 0 < n -> scaled 0 n = Finite 0.
Proof.
  intros Hn. unfold scaled, div, mul, ofNat.
  rewrite isZero_ofNat. destruct (Nat.eqb_spec n 0); [lia|].
  rewrite (Qred_complete ((Z.of_nat 0 # 1) / (Z.of_nat n # 1)) 0).
  - reflexivity.
  - unfold Qdiv. cbn [Z.of_nat]. apply Qmult_0_l.
Qed.


(** ** analyzeImages *)

Lemma noAlt_imageOf (el : node) : noAlt (imageOf el) = negb (hasAlt el).
Proof.
  unfold noAlt, imageOf, hasAlt. cbn [alt].
  destruct (attr "alt" el) as [[|c s]|]; reflexivity.
Qed.


Lemma filter_length_le {A : Type} (f : A -> bool) (l : list A) :
  List.length (filter f l) <= List.length l.
Proof.
  induction l as [|x l IH]; simpl; [lia|]. destruct (f x); simpl; lia.
Qed.

Lemma analyzeImages_percentage_scaled (d : document) :
  missingAltPercentage (analyzeImages d)
  = num_or_zero (round (scaled (missingAlt (analyzeImages d))
                               (image_total (analyzeImages d)))).
Proof. reflexivity. Qed.




(** When every image has a non-empty [alt] nothing is missing and the
    percentage is 0; when there are images and none has one, all are
    missing and the percentage is 100. *)
Theorem analyzeImages_all_or_none (d : document) :
  (forallb hasAlt (select "img" d) = true ->
   missingAlt (analyzeImages d) = 0
   /\ missingAltPercentage (analyzeImages d) = Finite 0
   /\ image_examples (analyzeImages d) = [])
  /\ (select "img" d <> [] ->
      forallb (fun el => negb (hasAlt el)) (select "img" d) = true ->
      missingAlt (analyzeImages d) = image_total (analyzeImages d)
      /\ missingAltPercentage (analyzeImages d) = Finite 100).
Proof.
  split.
  - intros H.
    assert (E : filter noAlt (map imageOf (select "img" d)) = []).
    { induction (select "img" d) as [|el l IH]; [reflexivity|].
      cbn in H. apply andb_true_iff in H. destruct H as [H1 H2].
      cbn. rewrite noAlt_imageOf, H1. cbn. now apply IH. }
    assert (E0 : missingAlt (analyzeImages d) = 0).
    { unfold analyzeImages. cbn [missingAlt]. now rewrite E. }
    split; [exact E0|]. split.
    + rewrite analyzeImages_percentage_scaled, E0.
      destruct (image_total (analyzeImages d)) as [|n];
        [reflexivity | rewrite scaled_none; [reflexivity | lia]].
    + unfold analyzeImages. cbn [image_examples]. now rewrite E.
  - intros Hne H.
    assert (E : filter noAlt (map imageOf (select "img" d))
                = map imageOf (select "img" d)).
    { clear Hne. induction (select "img" d) as [|el l IH]; [reflexivity|].
      cbn in H. apply andb_true_iff in H. destruct H as [H1 H2].
      cbn. rewrite noAlt_imageOf, H1. f_equal. now apply IH. }
    assert (E1 : missingAlt (analyzeImages d)
                 = image_total (analyzeImages d)).
    { unfold analyzeImages. cbn [missingAlt image_total]. now rewrite E. }
    split; [exact E1|].
    rewrite analyzeImages_percentage_scaled, E1.
    rewrite scaled_all; [reflexivity|].
    unfold analyzeImages. cbn [image_total]. rewrite length_map.
    destruct (select "img" d); [contradiction | cbn; lia].
Qed.

Lemma analyzeImages_all_or_none_example :
  missingAltPercentage
    (analyzeImages (page [image [("src", "a.png"); ("alt", "logo")]]))
  = Finite 0
  /\ missingAltPercentage
       (analyzeImages (page [image [("src", "a.png")];
                             image [("alt", "")]]))
     = Finite 100.
Proof.
  split.
  - apply (proj1 (analyzeImages_all_or_none
                    (page [image [("src", "a.png"); ("alt", "logo")]]))).
    reflexivity.
  - apply (proj2 (analyzeImages_all_or_none
                    (page [image [("src", "a.png")]; image [("alt", "")]]))).
    + discriminate.
    + reflexivity.
Defined.

(** ** analyzeLinks *)

Lemma hrefs_length (anchors : list node) :
  List.length (hrefs anchors) = List.length (filter hasHref anchors).
Proof.
  induction anchors as [|el l IH]; simpl; [reflexivity|].
  unfold hasHref. destruct (attr "href" el); simpl; now rewrite IH.
Qed.

Lemma analyzeLinks_normal (w : World) (d : document) (baseUrl : string)
      (u : URL) :
  new_URL w baseUrl = Normal u ->
  analyzeLinks w d baseUrl
  = Normal
      (let links := hrefs (select "a" d) in
       let n := List.length (filter (isInternal (hostname u)) links) in
       {| link_total := List.length links;
          internal := n;
          external := List.length links - n;
          ratio := toFixed1 (scaled n (List.length links))
                   ++ "% internal" |}).
Proof. intros H. unfold analyzeLinks. rewrite H. reflexivity. Qed.

(** Once the address parses, [total] counts the anchors that have an
    [href] attribute (the others leave no entry), and the internal and
    the external links add up to it. *)
Theorem analyzeLinks_counts (w : World) (d : document) (baseUrl : string)
        (u : URL) :
  new_URL w baseUrl = Normal u ->
  exists ls,
    analyzeLinks w d baseUrl = Normal ls
    /\ link_total ls = List.length (filter hasHref (select "a" d))
    /\ link_total ls <= List.length (select "a" d)
    /\ internal ls + external ls = link_total ls.
Proof.
  intros H. rewrite (analyzeLinks_normal w d baseUrl u H). cbn zeta.
  eexists. split; [reflexivity|]. cbn [link_total internal external].
  rewrite hrefs_length. split; [reflexivity|].
  split; [apply filter_length_le|].
  pose proof (filter_length_le (isInternal (hostname u))
                               (hrefs (select "a" d))) as Hle.
  rewrite hrefs_length in Hle. lia.
Qed.

Lemma analyzeLinks_counts_example :
  exists ls,
    analyzeLinks (serving "https://example.com/")
                 (page [anchor "/about"; Element "a" [] [];
                        anchor "https://other.org/"])
                 "https://example.com/" = Normal ls
    /\ link_total ls = 2
    /\ link_total ls <= 3
    /\ internal ls + external ls = link_total ls.
Proof.
  exact (analyzeLinks_counts
           (serving "https://example.com/")
           (page [anchor "/about"; Element "a" [] [];
                  anchor "https://other.org/"])
           "https://example.com/"
           (mkURL "example.com" "https://example.com") eq_refl).
Defined.



(** [analyzeLinks] throws exactly when the [URL] constructor rejects the
    address, with the same error, whatever the document holds. *)
Theorem analyzeLinks_throw_iff (w : World) (d : document)
        (baseUrl : string) (e : error) :
  analyzeLinks w d baseUrl = Throw e <-> new_URL w baseUrl = Throw e.
Proof.
  unfold analyzeLinks, Exn.bind.
  destruct (new_URL w baseUrl); split; intros H;
    try discriminate; inversion H; reflexivity.
Qed.

(** ** checkRobotsTxt *)






(** ** getCommonKeywords *)

Section SortPermutation.
Context {A : Type} (cmp : A -> A -> option Z).

Lemma insert_Permutation (x : A) (l : list A) :
  Permutation (insert cmp x l) (x :: l).
Proof.
  induction l as [|y l IH]; cbn [insert]; [apply Permutation_refl|].
  destruct (placeBefore cmp x y); [apply Permutation_refl|].
  apply perm_trans with (y :: x :: l);
    [now apply perm_skip | apply perm_swap].
Qed.

Lemma sort_Permutation (l : list A) : Permutation (sort cmp l) l.
Proof.
  induction l as [|x l IH]; cbn [sort]; [apply Permutation_refl|].
  apply perm_trans with (x :: sort cmp l);
    [apply insert_Permutation | now apply perm_skip].
Qed.
End SortPermutation.

Lemma NoDup_firstn {A : Type} (n : nat) (l : list A) :
  NoDup l -> NoDup (firstn n l).
Proof.
  revert l; induction n as [|n IH]; intros l H; [constructor|].
  destruct l as [|x l]; [constructor|].
  inversion H as [|? ? Hx Hl]; subst. cbn. constructor; [|now apply IH].
  intros Hin. apply Hx. now apply (SeoProofs.In_slice0 n).
Qed.

Lemma In_keys_fold_iff (ws : list string) (o : object) (x : string) :
  In x (map fst (fold_left countWord ws o))
  <-> In x (map fst o) \/ In x (map keepLowerAZ ws).
Proof.
  revert o; induction ws as [|w ws IH]; intros o; cbn [fold_left map].
  - cbn. tauto.
  - rewrite IH. unfold countWord at 1. rewrite SeoProofs.In_keys_set.
    cbn. intuition.
Qed.

Lemma wordCount_keys (d : document) (t : string) :
  In t (map fst (wordCount d)) <-> In t (cleanedWords d).
Proof.
  unfold wordCount, cleanedWords. rewrite In_keys_fold_iff. cbn. tauto.
Qed.

Lemma wordCount_NoDup (d : document) : NoDup (map fst (wordCount d)).
Proof. unfold wordCount. apply SeoProofs.NoDup_keys_fold. constructor. Qed.

Lemma keywords_of_sorted (d : document) :
  topKeywordList d = firstn 10 (map fst (sort byCount (wordCount d))).
Proof. unfold topKeywordList, slice0. now rewrite firstn_map. Qed.

(** No keyword appears twice, there are at most ten, each of them is a
    cleaned word of the page, and when fewer than ten are given every
    cleaned word of the page is among them; the [keywords] string is
    never empty (the placeholder stands in). *)
Theorem getCommonKeywords_distinct (d : document) :
  NoDup (topKeywordList d)
  /\ List.length (topKeywordList d) <= 10
  /\ (forall t, In t (topKeywordList d) -> In t (cleanedWords d))
  /\ (List.length (topKeywordList d) < 10 ->
      forall t, In t (cleanedWords d) -> In t (topKeywordList d))
  /\ keywords (getCommonKeywords d) <> "".
Proof.
  assert (Hp : Permutation (map fst (sort byCount (wordCount d)))
                           (map fst (wordCount d)))
    by apply Permutation_map, sort_Permutation.
  split.
  { rewrite keywords_of_sorted. apply NoDup_firstn.
    apply (Permutation_NoDup (Permutation_sym Hp)), wordCount_NoDup. }
  split; [apply SeoProofs.topKeywordList_length|].
  split.
  { intros t Ht. rewrite keywords_of_sorted in Ht.
    apply (SeoProofs.In_slice0 10) in Ht.
    apply wordCount_keys. now apply (Permutation_in _ Hp). }
  split.
  { intros Hlen t Ht. rewrite keywords_of_sorted in *.
    rewrite firstn_all2.
    - apply (Permutation_in _ (Permutation_sym Hp)). now apply wordCount_keys.
    - rewrite length_firstn in Hlen. lia. }
  unfold getCommonKeywords. cbn [keywords].
  apply str_or_nonempty. discriminate.
Qed.

Lemma topKeywordList_sorted_example :
  nonIncreasing
    (map (frequency (page [paragraph "alpha gamma gamma alpha gamma beta"]))
         (topKeywordList
            (page [paragraph "alpha gamma gamma alpha gamma beta"]))).
Proof.
  apply (SeoProofs.topKeywordList_sorted
           (page [paragraph "alpha gamma gamma alpha gamma beta"])).
  vm_compute. intuition discriminate.
Defined.

Lemma topKeywordList_cleaned_example :
  allLowerAZ "testing" = true
  /\ exists word,
       In word (keywordWords (page [paragraph "Testing, 1-2-3"]))
       /\ 3 < String.length word
       /\ "testing" = keepLowerAZ word.
Proof.
  apply (SeoProofs.topKeywordList_cleaned
           (page [paragraph "Testing, 1-2-3"]) "testing").
  vm_compute. now left.
Defined.

(** As long as no word of the page cleans to [constructor], the table
    has one entry for each cleaned word, and the entry holds the number
    of times the word occurs. *)
Theorem wordCount_frequencies (d : document) :
  ~ In "constructor" (cleanedWords d) ->
  NoDup (map fst (wordCount d))
  /\ (forall t, In t (map fst (wordCount d)) <-> In t (cleanedWords d))
  /\ (forall t v, In (t, v) (wordCount d) ->
                  v = Num (frequency d t) /\ 0 < frequency d t).
Proof.
  intros Hc. split; [apply wordCount_NoDup|].
  split; [apply wordCount_keys|].
  intros t v Hin. split.
  - apply (SeoProofs.wordCount_entry d (t, v) Hc Hin).
  - unfold frequency. apply count_occ_In, wordCount_keys.
    apply (in_map fst) in Hin. exact Hin.
Qed.

Lemma wordCount_frequencies_example :
  NoDup (map fst (wordCount (page [paragraph "alpha gamma gamma"])))
  /\ (forall t,
        In t (map fst (wordCount (page [paragraph "alpha gamma gamma"])))
        <-> In t (cleanedWords (page [paragraph "alpha gamma gamma"])))
  /\ (forall t v,
        In (t, v) (wordCount (page [paragraph "alpha gamma gamma"])) ->
        v = Num (frequency (page [paragraph "alpha gamma gamma"]) t)
        /\ 0 < frequency (page [paragraph "alpha gamma gamma"]) t).
Proof.
  apply (wordCount_frequencies (page [paragraph "alpha gamma gamma"])).
  vm_compute. intuition discriminate.
Defined.

(** ** getCommonKeywords: the word [constructor] *)

Lemma getOwn_In_keys (o : object) (k : string) :
  In k (map fst o) -> exists v, getOwn o k = Some v.
Proof.
  induction o as [|[k0 v0] o IH]; cbn; [contradiction|].
  intros [->|H].
  - rewrite String.eqb_refl. eauto.
  - destruct (String.eqb k0 k); eauto.
Qed.

Lemma append_assoc (s t u : string) : (s ++ t) ++ u = s ++ (t ++ u).
Proof. induction s as [|c s IH]; cbn; [reflexivity | now rewrite IH]. Qed.

(** Whatever [constructor] holds in the table is the source text of
    [Object] with something appended. *)
Lemma countWord_constructor (o : object) (w : string) :
  (forall v, getOwn o "constructor" = Some v ->
             exists t, v = Str (Object_source ++ t)) ->
  forall v, getOwn (countWord o w) "constructor" = Some v ->
            exists t, v = Str (Object_source ++ t).
Proof.
  intros Ho v. unfold countWord. rewrite SeoProofs.getOwn_set.
  destruct (String.eqb_spec (keepLowerAZ w) "constructor") as [E|E];
    [|apply Ho].
  rewrite E. intros [= <-]. unfold JS.get.
  destruct (getOwn o "constructor") as [v0|] eqn:E0.
  - destruct (Ho v0 eq_refl) as [t ->]. exists (t ++ "1").
    rewrite <- append_assoc. reflexivity.
  - exists "1". reflexivity.
Qed.

Lemma fold_constructor (ws : list string) (o : object) :
  (forall v, getOwn o "constructor" = Some v ->
             exists t, v = Str (Object_source ++ t)) ->
  forall v, getOwn (fold_left countWord ws o) "constructor" = Some v ->
            exists t, v = Str (Object_source ++ t).
Proof.
  revert o; induction ws as [|w ws IH]; intros o Ho; [exact Ho|].
  cbn [fold_left]. apply IH. now apply countWord_constructor.
Qed.

(** When a word of the page cleans to [constructor], its entry in the
    table is a string that starts with the source text of [Object], no
    number; the comparator yields NaN for it against every entry, on
    either side. *)
Theorem wordCount_constructor (d : document) :
  In "constructor" (cleanedWords d) ->
  exists t,
    getOwn (wordCount d) "constructor" = Some (Str (Object_source ++ t))
    /\ ToNumber (Str (Object_source ++ t)) = None
    /\ (forall e, byCount e ("constructor", Str (Object_source ++ t)) = None
                  /\ byCount ("constructor", Str (Object_source ++ t)) e
                     = None).
Proof.
  intros Hin. apply wordCount_keys, getOwn_In_keys in Hin.
  destruct Hin as [v Hv].
  assert (H0 : forall v0, getOwn [] "constructor" = Some v0 ->
                          exists t, v0 = Str (Object_source ++ t))
    by discriminate.
  destruct (fold_constructor (keywordWords d) [] H0 v Hv) as [t ->].
  exists t. split; [exact Hv|]. split; [reflexivity|].
  intros e. unfold byCount, minus. cbn [snd].
  split; [reflexivity|]. cbn [ToNumber allDigits].
  destruct (ToNumber (snd e)); reflexivity.
Qed.

Lemma wordCount_constructor_example :
  exists t,
    getOwn (wordCount (page [paragraph "constructor constructor"]))
           "constructor" = Some (Str (Object_source ++ t))
    /\ ToNumber (Str (Object_source ++ t)) = None
    /\ (forall e, byCount e ("constructor", Str (Object_source ++ t)) = None
                  /\ byCount ("constructor", Str (Object_source ++ t)) e
                     = None).
Proof.
  apply (wordCount_constructor (page [paragraph "constructor constructor"])).
  vm_compute. now left.
Defined.

(** ** getCommonKeywords: ties *)

Lemma precedes_cons {A : Type} (a b y : A) (l : list A) :
  precedes a b (y :: l) <-> (a = y /\ In b l) \/ precedes a b l.
Proof.
  unfold precedes. split.
  - intros [l1 [l2 [E Hb]]]. destruct l1 as [|z l1]; cbn in E.
    + inversion E; subst. now left.
    + inversion E; subst. right. eauto.
  - intros [[-> Hb] | [l1 [l2 [-> Hb]]]].
    + exists [], l. now split.
    + exists (y :: l1), l2. now split.
Qed.

Lemma precedes_nil {A : Type} (a b : A) : ~ precedes a b [].
Proof. intros [l1 [l2 [E _]]]. destruct l1; discriminate. Qed.

Lemma precedes_firstn {A : Type} (a b : A) (n : nat) (l : list A) :
  precedes a b (firstn n l) -> precedes a b l.
Proof.
  revert l; induction n as [|n IH]; intros l H.
  - now apply precedes_nil in H.
  - destruct l as [|y l]; [now apply precedes_nil in H|].
    cbn [firstn] in H. apply precedes_cons in H. apply precedes_cons.
    destruct H as [[-> Hb] | H].
    + left. split; [reflexivity | now apply (SeoProofs.In_slice0 n)].
    + right. now apply IH.
Qed.

Lemma precedes_map {A B : Type} (f : A -> B) (a b : A) (l : list A) :
  precedes a b l -> precedes (f a) (f b) (map f l).
Proof.
  intros [l1 [l2 [-> Hb]]]. exists (map f l1), (map f l2).
  split; [now rewrite map_app | now apply in_map].
Qed.

Lemma precedes_map_inv {A B : Type} (f : A -> B) (x y : B) (l : list A) :
  precedes x y (map f l) ->
  exists a b, f a = x /\ f b = y /\ precedes a b l.
Proof.
  induction l as [|z l IH]; cbn [map]; intros H.
  - now apply precedes_nil in H.
  - apply precedes_cons in H. destruct H as [[-> Hb] | H].
    + apply in_map_iff in Hb. destruct Hb as [b [<- Hb]].
      exists z, b. repeat split. apply precedes_cons. now left.
    + destruct (IH H) as [a [b [Ha [Hb Hp]]]].
      exists a, b. repeat split; auto. apply precedes_cons. now right.
Qed.

Section SortOrder.
Context {A : Type} (cmp : A -> A -> option Z).

(** Where [a] stands before [b] after an insertion: the new entry was
    put before [b], or it went past [a], or they stood so before. *)
Lemma insert_precedes (a b x : A) (s : list A) :
  precedes a b (insert cmp x s) ->
  (a = x /\ In b s)
  \/ (b = x /\ In a s /\ placeBefore cmp x a = false)
  \/ precedes a b s.
Proof.
  induction s as [|y r IH]; cbn [insert]; intros H.
  - apply precedes_cons in H. destruct H as [[_ []] | H].
    now apply precedes_nil in H.
  - destruct (placeBefore cmp x y) eqn:E.
    + apply precedes_cons in H. destruct H as [[-> Hb] | H]; auto.
    + apply precedes_cons in H. destruct H as [[-> Hb] | H].
      * apply SeoProofs.In_insert in Hb. destruct Hb as [-> | Hb].
        -- right. left. repeat split; [now left | exact E].
        -- right. right. apply precedes_cons. now left.
      * destruct (IH H) as [[-> Hb] | [[-> [Ha Hx]] | Hp]].
        -- left. split; [reflexivity | now right].
        -- right. left. repeat split; [now right | exact Hx].
        -- right. right. apply precedes_cons. now right.
Qed.
End SortOrder.

(** The sort is stable on numeric counts: entries with the same count
    keep their order. *)
Lemma sort_stable (a b : string * value) (l : list (string * value)) :
  Forall isNum l ->
  storedCount a = storedCount b ->
  precedes a b (sort byCount l) -> precedes a b l.
Proof.
  intros Hn Hc. induction Hn as [|x l Hx Hl IH]; cbn [sort]; intros H.
  - now apply precedes_nil in H.
  - apply insert_precedes in H. apply precedes_cons.
    destruct H as [[-> Hb] | [[-> [Ha Hp]] | H]].
    + left. split; [reflexivity | now apply SeoProofs.In_sort in Hb].
    + exfalso. apply SeoProofs.In_sort in Ha.
      rewrite Forall_forall in Hl.
      rewrite (SeoProofs.placeBefore_byCount x a Hx (Hl a Ha)) in Hp.
      apply Nat.leb_gt in Hp. lia.
    + right. now apply IH.
Qed.

Lemma keys_set (o : object) (k : string) (v : value) :
  map fst (JS.set o k v)
  = if in_dec string_dec k (map fst o) then map fst o
    else (map fst o ++ [k])%list.
Proof.
  induction o as [|[k0 v0] o IH]; cbn [JS.set map fst]; [reflexivity|].
  destruct (String.eqb_spec k0 k) as [->|Hk]; cbn [map fst].
  - destruct (in_dec string_dec k (k :: map fst o)) as [_|Hn];
      [reflexivity | exfalso; apply Hn; now left].
  - rewrite IH.
    destruct (in_dec string_dec k (map fst o)) as [Hi|Hi];
      destruct (in_dec string_dec k (k0 :: map fst o)) as [Hj|Hj];
      try reflexivity.
    + exfalso. apply Hj. now right.
    + exfalso. destruct Hj as [Hj|Hj]; [congruence | contradiction].
Qed.

Lemma keys_fold (ws : list string) (o : object) :
  map fst (fold_left countWord ws o)
  = firstSeenFrom (map fst o) (map keepLowerAZ ws).
Proof.
  revert o; induction ws as [|w ws IH]; intros o; [reflexivity|].
  cbn [fold_left map firstSeenFrom]. rewrite IH. unfold countWord at 1.
  now rewrite keys_set.
Qed.

(** As long as no word of the page cleans to [constructor]: of two
    keywords with the same frequency, the one that stands before the
    other was first seen before it on the page. *)
Theorem topKeywordList_ties (d : document) (a b : string) :
  ~ In "constructor" (cleanedWords d) ->
  frequency d a = frequency d b ->
  precedes a b (topKeywordList d) ->
  precedes a b (firstSeen (cleanedWords d)).
Proof.
  intros Hc Hf Hp. unfold topKeywordList, slice0 in Hp.
  apply precedes_map_inv in Hp. destruct Hp as [ea [eb [<- [<- Hp]]]].
  apply precedes_firstn in Hp.
  assert (Hn : Forall isNum (wordCount d)).
  { apply Forall_forall. intros e He. exists (frequency d (fst e)).
    now apply SeoProofs.wordCount_entry. }
  assert (Ha : In ea (wordCount d)).
  { destruct Hp as [l1 [l2 [E _]]]. apply (SeoProofs.In_sort byCount).
    rewrite E. apply in_or_app. right. now left. }
  assert (Hb : In eb (wordCount d)).
  { destruct Hp as [l1 [l2 [E Hin]]]. apply (SeoProofs.In_sort byCount).
    rewrite E. apply in_or_app. right. now right. }
  apply sort_stable in Hp; [|exact Hn|].
  - apply (precedes_map fst) in Hp.
    unfold wordCount in Hp at 1. rewrite keys_fold in Hp. exact Hp.
  - unfold storedCount.
    rewrite (SeoProofs.wordCount_entry d ea Hc Ha),
      (SeoProofs.wordCount_entry d eb Hc Hb). exact Hf.
Qed.

Lemma topKeywordList_ties_example :
  precedes "gamma" "alpha"
           (firstSeen (cleanedWords
                         (page [paragraph "beta. gamma alpha beta"]))).
Proof.
  apply (topKeywordList_ties (page [paragraph "beta. gamma alpha beta"])).
  - vm_compute. intuition discriminate.
  - reflexivity.
  - exists ["beta"], ["alpha"]. split; [reflexivity | now left].
Defined.

(** ** analyzeSEO: the robots.txt request stands alone *)

(** Two worlds that differ only in what requests other than the page
    fetch give: when the analysis succeeds in one it succeeds in the
    other, and the two reports differ in the robots.txt entry only. *)
Theorem analyzeSEO_robots_isolated (w w' : World) (url : string)
        (r : SeoReport) :
  axios_get w' url = axios_get w url ->
  (forall html, cheerio_load w' html = cheerio_load w html) ->
  (forall u, new_URL w' u = new_URL w u) ->
  analyzeSEO w url = Normal (Report r) ->
  exists rb, checkRobotsTxt w' url = Normal rb
             /\ analyzeSEO w' url = Normal (Report (withRobots rb r)).
Proof.
  intros Hg Hl Hu H.
  assert (Hlinks : forall d, analyzeLinks w' d url = analyzeLinks w d url).
  { intros d. unfold analyzeLinks. now rewrite Hu. }
  pose proof (SeoProofs.checkRobotsTxt_normal w' url) as Hr'.
  unfold analyzeSEO, Exn.try_catch, Exn.bind in *.
  rewrite Hg. destruct (axios_get w url) as [html|e]; [|discriminate].
  rewrite Hl, Hlinks.
  destruct (analyzeLinks w (cheerio_load w html) url) as [ln|e];
    [|discriminate].
  destruct (checkRobotsTxt w url) as [rb|e]; [|discriminate].
  destruct (checkRobotsTxt w' url) as [rb'|e]; [|discriminate].
  exists rb'. split; [reflexivity|].
  cbn in H. injection H as <-. reflexivity.
Qed.

Lemma analyzeSEO_robots_isolated_example :
  exists rb,
    checkRobotsTxt
      (servingRobots "https://example.com/" "https://example.com/robots.txt"
                     "Disallow: /a")
      "https://example.com/" = Normal rb
    /\ exists r,
         analyzeSEO (serving "https://example.com/") "https://example.com/"
         = Normal (Report r)
         /\ analyzeSEO
              (servingRobots "https://example.com/"
                             "https://example.com/robots.txt" "Disallow: /a")
              "https://example.com/"
            = Normal (Report (withRobots rb r)).
Proof.
  destruct (analyzeSEO (serving "https://example.com/")
                       "https://example.com/") as [[r|msg]|e] eqn:E;
    try (vm_compute in E; discriminate).
  destruct (analyzeSEO_robots_isolated
              (serving "https://example.com/")
              (servingRobots "https://example.com/"
                             "https://example.com/robots.txt" "Disallow: /a")
              "https://example.com/" r eq_refl
              (fun _ => eq_refl) (fun _ => eq_refl) E) as [rb [H1 H2]].
  exists rb. split; [exact H1|]. exists r. split; [reflexivity | exact H2].
Defined.

End SeoExtras.

(* ================================================================== *)
(** * More properties of the security tab *)
(* ================================================================== *)

Module SecurityExtras.
Import JS Exn Eff Security SecuritySpec Tab MoreSpec.
Local Open Scope eff_scope.
Local Open Scope list_scope.

(** ** The polling loop, turn by turn *)

Lemma pollRounds_S (hostname : string) (a : nat) :
  pollRounds hostname a ++ [Waited interval; Fetched (pollRequest hostname)]
  = pollRounds hostname (S a).
Proof.
  induction a as [|a IH]; [reflexivity|].
  cbn [pollRounds app]. cbn [pollRounds] in IH. now rewrite IH.
Qed.

Lemma log_after_turn (hostname : string) (a : nat) :
  logBefore hostname a ++ [Fetched (pollRequest hostname)]
  = Fetched (startRequest hostname) :: pollRounds hostname (S a).
Proof.
  unfold logBefore. cbn [app]. rewrite <- app_assoc. cbn [app].
  now rewrite pollRounds_S.
Qed.

Section Turns.
Variable net : Network.
Variable hostname : string.

Lemma pollLoop_unfold (fuel a : nat) :
  a < maxAttempts ->
  pollLoop net hostname (S fuel) (a, logAfter hostname a)
  = match net (logBefore hostname a) (pollRequest hostname) with
    | Throw e => (Thrown e, (a, logAfter hostname (S a)))
    | Normal r =>
        if ok r then
          match json r with
          | Throw e => (Thrown e, (a, logAfter hostname (S a)))
          | Normal data =>
              if statusIs data "READY"
              then (Done data, (a, logAfter hostname (S a)))
              else if statusIs data "ERROR"
                   then (Thrown (Error "SSL Labs analysis failed"),
                         (a, logAfter hostname (S a)))
                   else pollLoop net hostname fuel
                                 (a + 1, logAfter hostname (S a))
          end
        else (Thrown (Error "SSL Labs polling error"),
              (a, logAfter hostname (S a)))
    end.
Proof.
  intros Ha. cbn [pollLoop]. unfold bind at 1, read at 1. cbn [fst snd].
  destruct (Nat.ltb_spec a maxAttempts) as [_|Hge]; [|lia].
  unfold bind at 1, wait, emit. cbn [fst snd].
  unfold bind at 1, fetch at 1. cbn [fst snd].
  fold (pollRequest hostname).
  change (logAfter hostname a ++ [Waited interval])
    with (logBefore hostname a).
  rewrite log_after_turn. fold (logAfter hostname (S a)).
  destruct (net (logBefore hostname a) (pollRequest hostname)) as [r|e];
    cbn [settle]; [|reflexivity].
  destruct (ok r); cbn [negb]; [|reflexivity].
  unfold bind at 1, await at 1.
  destruct (json r) as [data|e]; cbn [settle]; [|reflexivity].
  destruct (statusIs data "READY"); [reflexivity|].
  destruct (statusIs data "ERROR"); reflexivity.
Qed.

Lemma pollLoop_pending (fuel a : nat) :
  a < maxAttempts -> pendingAt net hostname a ->
  pollLoop net hostname (S fuel) (a, logAfter hostname a)
  = pollLoop net hostname fuel (a + 1, logAfter hostname (S a)).
Proof.
  intros Ha [r [data [Hn [Hok [Hj [Hr He]]]]]].
  rewrite (pollLoop_unfold fuel a Ha), Hn, Hok, Hj, Hr, He. reflexivity.
Qed.

Lemma pollLoop_ready (fuel a : nat) (data : SslData) :
  a < maxAttempts -> readyAt net hostname a data ->
  pollLoop net hostname (S fuel) (a, logAfter hostname a)
  = (Done data, (a, logAfter hostname (S a))).
Proof.
  intros Ha [r [Hn [Hok [Hj Hr]]]].
  rewrite (pollLoop_unfold fuel a Ha), Hn, Hok, Hj, Hr. reflexivity.
Qed.

Lemma pollLoop_fails (fuel a : nat) (err : error) :
  a < maxAttempts -> failsAt net hostname a err ->
  pollLoop net hostname (S fuel) (a, logAfter hostname a)
  = (Thrown err, (a, logAfter hostname (S a))).
Proof.
  intros Ha H. rewrite (pollLoop_unfold fuel a Ha).
  destruct H as [Hn | [r [Hn [[Hok ->] | [[Hok Hj]
                 | [data [Hok [Hj [Hr [He ->]]]]]]]]]]; rewrite Hn.
  - reflexivity.
  - now rewrite Hok.
  - now rewrite Hok, Hj.
  - now rewrite Hok, Hj, Hr, He.
Qed.

Lemma pollLoop_at_bound (fuel : nat) (log : list Event) :
  pollLoop net hostname fuel (maxAttempts, log)
  = (Thrown timeout, (maxAttempts, log)).
Proof. destruct fuel; reflexivity. Qed.

Lemma pollLoop_pending_run (n : nat) :
  forall a fuel,
    a + n <= maxAttempts ->
    (forall i, a <= i < a + n -> pendingAt net hostname i) ->
    pollLoop net hostname (n + fuel) (a, logAfter hostname a)
    = pollLoop net hostname fuel (a + n, logAfter hostname (a + n)).
Proof.
  induction n as [|n IH]; intros a fuel Hle Hp.
  - now rewrite Nat.add_0_r.
  - cbn [Nat.add]. rewrite pollLoop_pending; [|lia|apply Hp; lia].
    rewrite Nat.add_1_r, IH; [|lia|intros i Hi; apply Hp; lia].
    now rewrite Nat.add_succ_r.
Qed.

Lemma runSSL_started :
  started net hostname ->
  runSSL net hostname
  = match pollLoop net hostname maxAttempts (0, logAfter hostname 0) with
    | (Done data, s) => (Done (Some data), s)
    | (Thrown err, s) =>
        (Done None, (fst s, snd s ++ [Logged "SSL check failed:" err]))
    | (OutOfFuel, s) => (OutOfFuel, s)
    end.
Proof.
  intros [r [Hn Hok]].
  apply (SecurityProofs.checkSSL_polling net hostname r Hn Hok).
Qed.

(** When the service answers the start request, leaves the first [j]
    polls pending and reports READY at the next one (within the 30),
    [checkSSL] resolves to the data of that poll after [j + 1] turns,
    with the counter at [j], and logs no error. *)
Theorem checkSSL_ready_at (j : nat) (data : SslData) :
  started net hostname ->
  j < maxAttempts ->
  (forall i, i < j -> pendingAt net hostname i) ->
  readyAt net hostname j data ->
  runSSL net hostname
  = (Done (Some data),
     (j, Fetched (startRequest hostname) :: pollRounds hostname (S j))).
Proof.
  intros Hs Hj Hp Hr. rewrite (runSSL_started Hs).
  assert (Hf : maxAttempts = j + S (maxAttempts - S j)) by lia.
  rewrite Hf at 1.
  rewrite (pollLoop_pending_run j 0); [|lia|intros i Hi; apply Hp; lia].
  cbn [Nat.add]. now rewrite (pollLoop_ready _ j data Hj Hr).
Qed.

(** When all 30 polls are left pending, [checkSSL] resolves to [null]
    after 30 turns, the error it logs being the timeout. *)
Theorem checkSSL_gives_up :
  started net hostname ->
  (forall i, i < maxAttempts -> pendingAt net hostname i) ->
  runSSL net hostname
  = (Done None,
     (maxAttempts,
      Fetched (startRequest hostname)
      :: pollRounds hostname maxAttempts
      ++ [Logged "SSL check failed:" timeout])).
Proof.
  intros Hs Hp. rewrite (runSSL_started Hs).
  assert (Hf : maxAttempts = maxAttempts + 0) by lia.
  rewrite Hf at 1.
  rewrite (pollLoop_pending_run maxAttempts 0);
    [|lia|intros i Hi; apply Hp; lia].
  cbn [Nat.add]. rewrite pollLoop_at_bound. reflexivity.
Qed.

(** A poll that is rejected, not ok, no JSON or of status ERROR ends
    the polling at once: [checkSSL] resolves to [null], logs that error
    and makes no further request. *)
Theorem checkSSL_stops_at_failure (j : nat) (err : error) :
  started net hostname ->
  j < maxAttempts ->
  (forall i, i < j -> pendingAt net hostname i) ->
  failsAt net hostname j err ->
  runSSL net hostname
  = (Done None,
     (j, Fetched (startRequest hostname)
         :: pollRounds hostname (S j)
         ++ [Logged "SSL check failed:" err])).
Proof.
  intros Hs Hj Hp Hr. rewrite (runSSL_started Hs).
  assert (Hf : maxAttempts = j + S (maxAttempts - S j)) by lia.
  rewrite Hf at 1.
  rewrite (pollLoop_pending_run j 0); [|lia|intros i Hi; apply Hp; lia].
  cbn [Nat.add]. now rewrite (pollLoop_fails _ j err Hj Hr).
Qed.

End Turns.

Lemma checkSSL_ready_at_example :
  runSSL readySecond "h"
  = (Done (Some (mkSslData [] (Some "READY"))),
     (1, Fetched (startRequest "h") :: pollRounds "h" 2)).
Proof.
  apply (checkSSL_ready_at readySecond "h" 1).
  - eexists. split; reflexivity.
  - unfold maxAttempts. lia.
  - intros i Hi. assert (E : i = 0) by lia. subst i.
    eexists. eexists. repeat split.
  - eexists. repeat split.
Defined.

Lemma checkSSL_gives_up_example :
  runSSL neverReady "h"
  = (Done None,
     (maxAttempts,
      Fetched (startRequest "h")
      :: pollRounds "h" maxAttempts
      ++ [Logged "SSL check failed:" timeout])).
Proof.
  apply (checkSSL_gives_up neverReady "h").
  - eexists. split; reflexivity.
  - intros i Hi. eexists. eexists. repeat split.
Defined.

Lemma checkSSL_stops_at_failure_example :
  runSSL errorSecond "h"
  = (Done None,
     (1, Fetched (startRequest "h")
         :: pollRounds "h" 2
         ++ [Logged "SSL check failed:" (Error "SSL Labs analysis failed")])).
Proof.
  apply (checkSSL_stops_at_failure errorSecond "h" 1).
  - eexists. split; reflexivity.
  - unfold maxAttempts. lia.
  - intros i Hi. assert (E : i = 0) by lia. subst i.
    eexists. eexists. repeat split.
  - right. eexists. split; [reflexivity|]. right. right.
    eexists. repeat split.
Defined.

(** When the start request is rejected or its response is not ok,
    [checkSSL] resolves to [null] without waiting and without a single
    poll. *)
Theorem checkSSL_failed_start (net : Network) (hostname : string) :
  ~ started net hostname ->
  result (runSSL net hostname) = Done None
  /\ requests (events (runSSL net hostname)) = [startRequest hostname]
  /\ waited (events (runSSL net hostname)) = 0%N.
Proof.
  intros Hs.
  assert (H : exists err,
             runSSL net hostname
             = (Done None,
                (0, [Fetched (startRequest hostname);
                     Logged "SSL check failed:" err]))).
  { destruct (net [] (startRequest hostname)) as [r|e] eqn:E.
    - destruct (ok r) eqn:Hok.
      + exfalso. apply Hs. exists r. now split.
      + exists (Error "SSL Labs API error").
        apply SecurityProofs.checkSSL_start_failure. right. exists r. auto.
    - exists e. apply SecurityProofs.checkSSL_start_failure. now left. }
  destruct H as [err ->]. repeat split.
Qed.

Lemma checkSSL_failed_start_example :
  result (runSSL refusing "h") = Done None
  /\ requests (events (runSSL refusing "h")) = [startRequest "h"]
  /\ waited (events (runSSL refusing "h")) = 0%N.
Proof.
  apply (checkSSL_failed_start refusing "h").
  intros [r [Hn Hok]]. inversion Hn; subst. discriminate.
Defined.

(** ** checkSecurityHeaders *)

Lemma requests_app (l1 l2 : list Event) :
  requests (l1 ++ l2) = requests l1 ++ requests l2.
Proof.
  induction l1 as [|[r|ms|m e] l1 IH]; cbn; rewrite ?IH; reflexivity.
Qed.

Lemma requests_headerEvents (net : Network) (hostname : string) :
  requests (headerEvents net hostname) = [headRequest hostname].
Proof.
  unfold headerEvents. destruct (net [] (headRequest hostname)); reflexivity.
Qed.

Lemma requests_adminEvents (hostname : string) (paths : list string) :
  requests (adminEvents hostname paths) = map (adminRequest hostname) paths.
Proof.
  unfold adminEvents.
  induction paths as [|p l IH]; cbn [map requests]; [|rewrite IH];
    reflexivity.
Qed.

Lemma requests_fileEvents (hostname : string) (paths : list string) :
  requests (fileEvents hostname paths) = map (fileRequest hostname) paths.
Proof.
  unfold fileEvents.
  induction paths as [|p l IH]; cbn [map requests]; [|rewrite IH];
    reflexivity.
Qed.

(** Whatever the network answers, [checkSecurityHeaders] returns, and it
    makes the same 22 requests in the same order: the header request,
    the 9 admin probes, the directory request and the 11 file probes. *)
Theorem checkSecurityHeaders_requests (net : Network) (hostname : string) :
  (exists hs v, result (runSecurityHeaders net hostname) = Done (hs, v))
  /\ requests (events (runSecurityHeaders net hostname))
     = probeRequests hostname
  /\ List.length (requests (events (runSecurityHeaders net hostname))) = 22.
Proof.
  rewrite SecurityProofs.checkSecurityHeaders_run.
  unfold result, events. cbn [fst snd].
  assert (E : requests
                (((headerEvents net hostname
                   ++ adminEvents hostname adminPaths)
                  ++ [Fetched (dirRequest hostname)])
                 ++ fileEvents hostname sensitiveFilePaths)
              = probeRequests hostname).
  { rewrite !requests_app, requests_headerEvents, requests_adminEvents,
      requests_fileEvents. unfold probeRequests. cbn [requests app].
    now rewrite <- app_assoc. }
  split; [eexists; eexists; reflexivity|].
  split; [exact E|]. rewrite E. reflexivity.
Qed.

Lemma Subseq_length {A : Type} (l1 l2 : list A) :
  Subseq l1 l2 -> List.length l1 <= List.length l2.
Proof. induction 1; cbn; lia. Qed.

Lemma Subseq_In {A : Type} (l1 l2 : list A) (x : A) :
  Subseq l1 l2 -> In x l1 -> In x l2.
Proof.
  induction 1 as [|y l1 l2 _ IH|y l1 l2 _ IH]; cbn; [tauto | auto |].
  intros [->|H]; auto.
Qed.

Lemma Subseq_NoDup {A : Type} (l1 l2 : list A) :
  Subseq l1 l2 -> NoDup l2 -> NoDup l1.
Proof.
  induction 1 as [|y l1 l2 Hs IH|y l1 l2 Hs IH]; intros Hn.
  - constructor.
  - inversion Hn; subst. auto.
  - inversion Hn as [|? ? Hy Hl]; subst. constructor; [|auto].
    intros Hin. apply Hy. now apply (Subseq_In l1 l2).
Qed.

Lemma NoDup_adminPaths : NoDup adminPaths.
Proof.
  unfold adminPaths.
  repeat (constructor; [cbn; intuition discriminate|]). constructor.
Qed.

Lemma NoDup_sensitiveFilePaths : NoDup sensitiveFilePaths.
Proof.
  unfold sensitiveFilePaths.
  repeat (constructor; [cbn; intuition discriminate|]). constructor.
Qed.

(** There are at most 9 admin findings and at most 11 file findings,
    and no path is reported twice. *)
Theorem checkSecurityHeaders_findings_bounds
        (net : Network) (hostname : string)
        (hs : SecurityHeaders) (v : Vulnerabilities) :
  result (runSecurityHeaders net hostname) = Done (hs, v) ->
  List.length (adminUrls v) <= 9
  /\ List.length (sensitiveFiles v) <= 11
  /\ NoDup (map admin_url (adminUrls v))
  /\ NoDup (map file (sensitiveFiles v)).
Proof.
  rewrite SecurityProofs.checkSecurityHeaders_run. unfold result. cbn [fst].
  intros H. apply SecurityProofs.Done_inj, pair_equal_spec in H.
  destruct H as [_ <-]. cbn [adminUrls sensitiveFiles].
  set (log0 := headerEvents net hostname).
  set (log2 := (log0 ++ adminEvents hostname adminPaths)
               ++ [Fetched (dirRequest hostname)]).
  pose proof (SecurityProofs.adminScan_order net hostname adminPaths log0)
    as Ha.
  pose proof (SecurityProofs.fileScan_order net hostname sensitiveFilePaths
                                            log2) as Hf.
  split; [|split; [|split]].
  - apply Subseq_length in Ha. now rewrite length_map in Ha.
  - apply Subseq_length in Hf. now rewrite length_map in Hf.
  - apply (Subseq_NoDup _ _ Ha NoDup_adminPaths).
  - apply (Subseq_NoDup _ _ Hf NoDup_sensitiveFilePaths).
Qed.

Lemma checkSecurityHeaders_findings_bounds_example :
  List.length [mkAdminUrlVuln "/admin" 301 true;
               mkAdminUrlVuln "/cpanel" 500 false] <= 9
  /\ List.length [mkSensitiveFileVuln "/.env" true 200] <= 11
  /\ NoDup ["/admin"; "/cpanel"]
  /\ NoDup ["/.env"].
Proof.
  exact (checkSecurityHeaders_findings_bounds
           unreachableRoot "h" noHeaders
           {| adminUrls := [mkAdminUrlVuln "/admin" 301 true;
                            mkAdminUrlVuln "/cpanel" 500 false];
              directoryIndexing := false;
              sensitiveFiles := [mkSensitiveFileVuln "/.env" true 200] |}
           eq_refl).
Defined.

(** ** SecurityStatus *)

Lemma or_null_nonempty (v : option string) : or_null v <> Some "".
Proof. destruct v as [[|c s]|]; cbn; discriminate. Qed.

Lemma headerScan_nonempty (net : Network) (hostname : string) :
  Forall (fun f => f <> Some "") (headerFields (headerScan net hostname)).
Proof.
  unfold headerScan, headerFields.
  destruct (net [] (headRequest hostname)) as [response|e];
    cbn [strictTransportSecurity xFrameOptions xXssProtection
         contentSecurityPolicy xContentTypeOptions noHeaders];
    repeat (constructor; [first [apply or_null_nonempty | discriminate]|]);
    constructor.
Qed.

Lemma statusText_length (status : option string) :
  String.length (statusText status) <= 53.
Proof.
  destruct status as [s|]; cbn [statusText]; [|cbn; lia].
  destruct (String.eqb_spec s "") as [->|Hs]; cbn [negb andb]; [cbn; lia|].
  destruct (Nat.ltb_spec 50 (String.length s)) as [Hl|Hl]; [|lia].
  rewrite SeoExtras.length_append, SeoExtras.length_substring0.
  cbn [String.length]. lia.
Qed.

Lemma statusText_nonempty (status : option string) :
  status <> Some "" -> statusText status <> "".
Proof.
  destruct status as [s|]; cbn [statusText]; [|discriminate].
  intros Hs.
  destruct (negb (String.eqb s "") && (50 <? String.length s)).
  - intros E. apply (f_equal String.length) in E.
    rewrite SeoExtras.length_append in E. cbn [String.length] in E. lia.
  - congruence.
Qed.

(** Every header field that [checkSecurityHeaders] returns is [null] or
    a non-empty string, so each of the five rows shows a non-empty text
    of at most 53 code units (the value, cut after 50 with ["..."]
    added, or [Not implemented] for [null]). *)
Theorem securityHeaders_display
        (net : Network) (hostname : string)
        (hs : SecurityHeaders) (v : Vulnerabilities) :
  result (runSecurityHeaders net hostname) = Done (hs, v) ->
  Forall (fun f => f <> Some ""
                   /\ statusText f <> ""
                   /\ String.length (statusText f) <= 53
                   /\ (isSecure f = false ->
                       statusText f = "Not implemented"))
         (headerFields hs).
Proof.
  rewrite SecurityProofs.checkSecurityHeaders_run. unfold result. cbn [fst].
  intros H. apply SecurityProofs.Done_inj, pair_equal_spec in H.
  destruct H as [<- _].
  apply (Forall_impl _ (P := fun f => f <> Some ""));
    [|apply headerScan_nonempty].
  intros f Hf. split; [exact Hf|].
  split; [now apply statusText_nonempty|].
  split; [apply statusText_length|].
  destruct f; [discriminate | reflexivity].
Qed.

Lemma securityHeaders_display_example :
  Forall (fun f => f <> Some ""
                   /\ statusText f <> ""
                   /\ String.length (statusText f) <= 53
                   /\ (isSecure f = false ->
                       statusText f = "Not implemented"))
         [None; None; None; None; None].
Proof.
  exact (securityHeaders_display
           unreachableRoot "h" noHeaders
           {| adminUrls := [mkAdminUrlVuln "/admin" 301 true;
                            mkAdminUrlVuln "/cpanel" 500 false];
              directoryIndexing := false;
              sensitiveFiles := [mkSensitiveFileVuln "/.env" true 200] |}
           eq_refl).
Defined.

(** ** analyzeWebsite *)

Lemma checkSSL_returns (net : Network) (hostname : string) :
  exists out s, runSSL net hostname = (Done out, s).
Proof.
  destruct (net [] (startRequest hostname)) as [r|e] eqn:E.
  - destruct (ok r) eqn:Hok.
    + rewrite (SecurityProofs.checkSSL_polling net hostname r E Hok).
      destruct (SecurityProofs.pollLoop_spec
                  net hostname maxAttempts 0
                  [Fetched (startRequest hostname)])
        as [k [c [a [Hrun [_ [_ [_ [_ [Hf _]]]]]]]]]; [lia|].
      rewrite Hrun. destruct c as [data|err|]; [| |contradiction];
        eexists; eexists; reflexivity.
    + eexists. eexists.
      apply (SecurityProofs.checkSSL_start_failure
               net hostname (Error "SSL Labs API error")).
      right. exists r. auto.
  - eexists. eexists.
    apply (SecurityProofs.checkSSL_start_failure net hostname e). now left.
Qed.

(** For a non-empty address [analyzeWebsite] always ends in the same
    kind of state: not loading, no error message, the headers and the
    vulnerabilities present, and [sslData] what [checkSSL] resolved to.
    The [catch] that sets the error message is never entered. *)
Theorem analyzeWebsite_outcome
        (new_URL : string -> completion Seo.URL) (sslNet secNet : Network)
        (url : string) (st : TabState) (evs : list Event) :
  url <> "" ->
  exists ssl hs v,
    result (runSSL sslNet (extractHostname new_URL url)) = Done ssl
    /\ result (runSecurityHeaders secNet (extractHostname new_URL url))
       = Done (hs, v)
    /\ analyzeWebsite new_URL sslNet secNet url (st, evs)
       = (Done tt,
          ({| loading := false;
              sslData := ssl;
              securityHeaders := Some hs;
              vulnerabilities := Some v;
              tab_error := "" |}, evs)).
Proof.
  intros Hurl.
  destruct (checkSSL_returns sslNet (extractHostname new_URL url))
    as [ssl [s1 Hssl]].
  pose proof (SecurityProofs.checkSecurityHeaders_run
                secNet (extractHostname new_URL url)) as Hsec.
  cbv zeta in Hsec.
  eexists. eexists. eexists.
  split; [rewrite Hssl; reflexivity|].
  split; [rewrite Hsec; reflexivity|].
  unfold analyzeWebsite.
  destruct (String.eqb_spec url ""); [contradiction|].
  unfold bind, update, try_finally, try_catch, promiseAll.
  cbn [fst snd]. rewrite Hssl, Hsec. reflexivity.
Qed.

Lemma analyzeWebsite_outcome_example :
  exists ssl hs v,
    result (runSSL refusing (extractHostname SeoSpec.basicURL "h"))
    = Done ssl
    /\ result (runSecurityHeaders unreachableRoot
                 (extractHostname SeoSpec.basicURL "h"))
       = Done (hs, v)
    /\ analyzeWebsite SeoSpec.basicURL refusing unreachableRoot "h"
                      (initialTab, [])
       = (Done tt,
          ({| loading := false;
              sslData := ssl;
              securityHeaders := Some hs;
              vulnerabilities := Some v;
              tab_error := "" |}, [])).
Proof.
  apply (analyzeWebsite_outcome SeoSpec.basicURL refusing unreachableRoot
           "h" initialTab []).
  discriminate.
Defined.

End SecurityExtras.
